(** * ElectrumSV network core: a shallow embedding of [electrumsv/network.py]

    The development follows the layout of the Python module: the pure proof
    helper [_root_from_proof], the exception [DisconnectSessionError], the
    per-server run-time state [SVServerState], the interned server registry
    [SVServer], the part of [SVSession] that requests header chunks and that
    manages script-hash subscriptions, and the lagging check of [Network].

    Conventions.
    - Python integers are [Z]; a time (a value of [time.time()], which is a
      finite float, or a number of seconds held as an [int]) is the rational
      [Q] it denotes; [+] and [-] on a float round their exact result to
      the nearest float, which is [round53]; comparisons are exact;
      [int(x)] is truncation towards zero.
    - Byte strings are [list Byte.byte], text is [string].
    - A Python [dict] or [set] is a stdpp [gmap] or [gset]; a Python [list]
      is a [list].
    - A function that can raise returns [exn + A]; a function that mutates
      process-wide tables takes and returns the tables explicitly.
    - An awaited [send_request] is recorded as an entry of a trace of
      requests; the reply of the server is an argument of the model. *)

From Stdlib Require Import ZArith QArith Qround Qpower List Lia Lqa Ascii String.
From stdpp Require Import gmap strings list fin_maps pretty sorting.
From Equations Require Import Equations.

Close Scope Q_scope.
Local Open Scope Z_scope.
#[local] Set Warnings "-clear-no-such-hyp".

(** ** Exceptions and results *)

Abbreviation bytes := (list Byte.byte).

(** [DisconnectSessionError]: the object that the constructor builds.
    [args] is what [super().__init__(reason)] stores, [blacklist] is the
    attribute read by [SVServer.connect] and [Network._maintain_wallet]. *)
Module DisconnectSessionError.

Record t := mk { args : string; blacklist : bool }.

(** [def __init__(self, reason, *, blacklist=False)] *)
Definition __init__ (reason : string) (blacklist : bool) : t :=
  {| args := reason; blacklist := false |}.

End DisconnectSessionError.

Inductive exn : Type :=
  | ValueError (msg : string)
  | AssertionError
  | KeyError (key : string)
  | TypeError
  | MissingHeader (msg : string)
  | IncorrectBits
  | InsufficientPoW
  | RPCError (msg : string)
  | TaskTimeout
  | DisconnectSession (e : DisconnectSessionError.t).

(** [str(e)], as far as the messages built below need it. *)
Definition str_exn (e : exn) : string :=
  match e with
  | ValueError msg | MissingHeader msg | RPCError msg => msg
  | KeyError key => "'" +:+ key +:+ "'"
  | DisconnectSession e => DisconnectSessionError.args e
  | AssertionError | TypeError | IncorrectBits | InsufficientPoW
  | TaskTimeout => ""
  end.

Definition result (A : Type) : Type := exn + A.

Definition ret {A} (a : A) : result A := inr a.
Definition raise {A} (e : exn) : result A := inl e.
Definition bind {A B} (m : result A) (k : A -> result B) : result B :=
  match m with
  | inl e => inl e
  | inr a => k a
  end.

Notation "'let*' x := m 'in' k" := (bind m (fun x => k))
  (at level 10, x name, m at level 100, k at level 200).

Definition raises {A} (m : result A) : Prop :=
  match m with inl _ => True | inr _ => False end.

(** ** ProofMath *)

Section ProofMath.

(** [bitcoinx.double_sha256], an external collaborator. *)
Variable double_sha256 : bytes -> bytes.

(** The [for elt in branch] loop of [_root_from_proof]; it returns the
    values of [hash] and [index] when the loop ends. *)
Fixpoint root_loop (hash : bytes) (branch : list bytes) (index : Z)
  : bytes * Z :=
  match branch with
  | [] => (hash, index)
  | elt :: branch' =>
      let hash' :=
        if negb (Z.land index 1 =? 0)
        then double_sha256 (elt ++ hash)
        else double_sha256 (hash ++ elt) in
      root_loop hash' branch' (Z.shiftr index 1)
  end.

Definition _root_from_proof (hash : bytes) (branch : list bytes) (index : Z)
  : result bytes :=
  let '(hash', index') := root_loop hash branch index in
  if negb (index' =? 0)
  then raise (ValueError ("index " +:+ pretty index'
                +:+ " out of range for proof of length "
                +:+ pretty (length branch)))
  else ret hash'.

(** The operation as the specification words it: a left fold over the
    siblings that carries the running hash and the index, testing the
    parity of the index and halving it. *)
Definition merkle_step (acc : bytes * Z) (elt : bytes) : bytes * Z :=
  let '(leaf, index) := acc in
  (if Z.odd index then double_sha256 (elt ++ leaf)
   else double_sha256 (leaf ++ elt),
   index / 2).

Definition merkle_root_from_branch (leaf : bytes) (branch : list bytes)
    (index : Z) : option bytes :=
  let '(root, index') := fold_left merkle_step branch (leaf, index) in
  if decide (index' = 0) then Some root else None.

End ProofMath.

(** ** Numbers and strings as Python compares them *)

Definition ONE_MINUTE : Z := 60.
Definition ONE_DAY : Z := 24 * 3600.

(** [x < y] and [x > y] on times. *)
Definition Qltb (x y : Q) : bool := negb (Qle_bool y x).
Definition Qgtb (x y : Q) : bool := Qltb y x.

(** [int(x)]: truncation towards zero. *)
Definition int (x : Q) : Z := Z.quot (Qnum x) (Zpos (Qden x)).

(** *** Float arithmetic

    A Python float is an IEEE-754 binary64 number: a significand of 53 bits
    times a power of two.  An operation on floats returns the float nearest
    to the exact result, a tie going to the even significand.  [rne] rounds
    a rational to the nearest integer in that way. *)
Definition rne (t : Q) : Z :=
  let f := Qfloor t in
  match (t - inject_Z f ?= 1 # 2)%Q with
  | Lt => f
  | Gt => f + 1
  | Eq => if Z.even f then f else f + 1
  end.

(** The exponent [e] of the last bit of the significand of a positive [q]:
    [2^52 <= q / 2^e < 2^53]. *)
Definition float_exponent (q : Q) : Z :=
  let k := Z.log2 (Qnum q) - Z.log2 (Zpos (Qden q)) in
  (if Qle_bool (2 ^ k) q then k else k - 1) - 52.

Definition round_pos (q : Q) : Q :=
  let e := float_exponent q in
  (inject_Z (rne (q * 2 ^ (- e))) * 2 ^ e)%Q.

(** The float nearest to [q].  The exponent is not bounded: this is the
    rounding of binary64 for every [q] from [2^-1022] up to the largest
    float in magnitude, which holds the times and counts of this module,
    and it leaves every float as it is, a subnormal one too.  The sums
    and differences below add an [int] below [2^53] to a finite float or
    subtract it: they never overflow, and they are exact where they fall
    below [2^-1022]. *)
Definition round53 (q : Q) : Q :=
  match Qnum q with
  | 0 => 0%Q
  | Zpos _ => round_pos q
  | Zneg _ => (- round_pos (- q))%Q
  end.

(** The rationals that are floats. *)
Definition is_float (x : Q) : Prop := (round53 x == x)%Q.

(** A rational stands for the float nearest to it, as a literal of the
    program or of a JSON text does; a float stands for itself
    ([round53_idem]).  So an operand is read through [round53].

    [x + y] and [x - y] where [x] or [y] is a float.  An [int] operand is
    converted first; that is exact below [2^53] ([is_float_int]), so for
    [ONE_DAY] and for a [retry_delay], which is at most 600.  Where both
    operands are [int]s below [2^53] Python adds exactly, and so does
    [float_add], their sum being a float. *)
Definition float_add (x y : Q) : Q := round53 (round53 x + round53 y).
Definition float_sub (x y : Q) : Q := round53 (round53 x - round53 y).

(** [x * y] on floats, where it is finite: [None] stands for an infinite
    product. *)
Definition float_mul (x y : Q) : option Q :=
  let p := round53 (round53 x * round53 y) in
  if Qle_bool (2 ^ 1024) p || Qle_bool p (- 2 ^ 1024) then None else Some p.

(** A number of a JSON reply, or computed from one: an [int] or a
    float.  ([True] and [False] are the [int]s 1 and 0.) *)
Inductive number := PyInt (n : Z) | PyFloat (x : Q).
Coercion PyInt : Z >-> number.

(** What [format(x, ',d')] raises on a float. *)
Definition float_format_error : string :=
  "Unknown format code 'd' for object of type 'float'".

(** [sub in s] on [str]: [sub] occurs in [s] as a substring. *)
Fixpoint str_in (sub s : string) : bool :=
  String.prefix sub s ||
  match s with
  | EmptyString => false
  | String _ s' => str_in sub s'
  end.

(** [a < b] on tuples of integers: lexicographic, a proper prefix is
    smaller. *)
Fixpoint tuple_ltb (a b : list Z) : bool :=
  match a, b with
  | [], [] => false
  | [], _ :: _ => true
  | _ :: _, [] => false
  | x :: a', y :: b' =>
      if x <? y then true else if y <? x then false else tuple_ltb a' b'
  end.

(** A [dict] with [str] keys, as the list of its items in insertion order
    ([dct.items()]). *)
Abbreviation json_dict := (list (string * Z)).

(** ** SVServerState *)

Module SVServerState.

(** A text attribute; [from_json] can overwrite it with a number. *)
Inductive attr := Str (s : string) | Int (z : Z).

Record t := mk {
  banner : attr;
  donation_address : attr;
  last_try : Q;
  last_good : Q;
  last_blacklisted : Q;
  retry_delay : Z;
  (** attributes that [__init__] does not define *)
  other : gmap string Z
}.

Definition __init__ : t :=
  {| banner := Str ""; donation_address := Str "";
     last_try := 0%Q; last_good := 0%Q; last_blacklisted := 0%Q;
     retry_delay := 0; other := ∅ |}.

(** [self.last_blacklisted > now - ONE_DAY].  [now] is a float, the
    value of [time.time()]; so are the three times of the state, unless
    they are still the [int] 0 of [__init__] or a number of seconds read
    by [from_json], which is an [int] below [2^53] and so a float too. *)
Definition is_blacklisted (self : t) (now : Q) : bool :=
  Qgtb (round53 (last_blacklisted self)) (float_sub now (inject_Z ONE_DAY)).

(** [not self.is_blacklisted(now) and
    self.last_try + self.retry_delay < now] *)
Definition can_retry (self : t) (now : Q) : bool :=
  negb (is_blacklisted self now)
  && Qltb (float_add (last_try self) (inject_Z (retry_delay self)))
          (round53 now).

Definition to_json (self : t) : json_dict :=
  [ ("last_try", int (last_try self));
    ("last_good", int (last_good self));
    ("last_blacklisted", int (last_blacklisted self)) ].

(** Assignments to one attribute. *)
Definition set_banner (self : t) (v : attr) : t :=
  mk v (donation_address self) (last_try self) (last_good self)
     (last_blacklisted self) (retry_delay self) (other self).
Definition set_donation_address (self : t) (v : attr) : t :=
  mk (banner self) v (last_try self) (last_good self)
     (last_blacklisted self) (retry_delay self) (other self).
Definition set_last_try (self : t) (v : Q) : t :=
  mk (banner self) (donation_address self) v (last_good self)
     (last_blacklisted self) (retry_delay self) (other self).
Definition set_last_good (self : t) (v : Q) : t :=
  mk (banner self) (donation_address self) (last_try self) v
     (last_blacklisted self) (retry_delay self) (other self).
Definition set_last_blacklisted (self : t) (v : Q) : t :=
  mk (banner self) (donation_address self) (last_try self)
     (last_good self) v (retry_delay self) (other self).
Definition set_retry_delay (self : t) (v : Z) : t :=
  mk (banner self) (donation_address self) (last_try self)
     (last_good self) (last_blacklisted self) v (other self).
Definition set_other (self : t) (name : string) (v : Z) : t :=
  mk (banner self) (donation_address self) (last_try self)
     (last_good self) (last_blacklisted self) (retry_delay self)
     (<[name := v]> (other self)).

(** [setattr(result, attr, value)] with an [int] value. *)
Definition setattr (self : t) (name : string) (value : Z) : t :=
  if String.eqb name "banner" then set_banner self (Int value)
  else if String.eqb name "donation_address" then
    set_donation_address self (Int value)
  else if String.eqb name "last_try" then
    set_last_try self (inject_Z value)
  else if String.eqb name "last_good" then
    set_last_good self (inject_Z value)
  else if String.eqb name "last_blacklisted" then
    set_last_blacklisted self (inject_Z value)
  else if String.eqb name "retry_delay" then set_retry_delay self value
  else set_other self name value.

(** [from_json]: a fresh state, then one [setattr] per item. *)
Definition from_json (dct : json_dict) : t :=
  fold_left (fun result '(name, value) => setattr result name value)
            dct __init__.

End SVServerState.

(** ** SVServer *)

Module SVServer.

(** The value passed as [port]: an [int] or a [str]. *)
Inductive port_arg := PortInt (p : Z) | PortStr (s : string).

Record t := mk {
  host : string;
  port : Z;
  protocol : string;
  state : SVServerState.t
}.

(** [SVServer.all_servers]: the interned servers by [(host, port,
    protocol)].  A key is only ever added by [__init__], after the port
    was checked to be an [int]. *)
Abbreviation registry := (gmap (string * Z * string) t).

Definition show_port (port : port_arg) : string :=
  match port with
  | PortInt p => pretty p
  | PortStr s => s
  end.

(** [SVServer(host, port, protocol)]: the new object and the registry
    that holds it, or the exception raised. *)
Definition __init__ (all_servers : registry) (host : string)
    (port : port_arg) (protocol : string) : result (registry * t) :=
  if String.eqb host "" then
    raise (ValueError ("bad host: " +:+ host))
  else
    match port with
    | PortStr _ => raise (ValueError ("bad port: " +:+ show_port port))
    | PortInt p =>
        if negb (str_in protocol "st") then
          raise (ValueError ("unknown protocol: " +:+ protocol))
        else
          let key := (host, p, protocol) in
          match all_servers !! key with
          | Some _ => raise AssertionError
          | None =>
              let self := mk host p protocol SVServerState.__init__ in
              ret (<[key := self]> all_servers, self)
          end
    end.

Section Unique.

(** The builtin [int(s)] on a [str]; [None] when it raises
    [ValueError]. *)
Variable int_of_str : string -> option Z.

Definition unique (all_servers : registry) (host : string)
    (port : port_arg) (protocol : string) : result (registry * t) :=
  let port :=
    match port with
    | PortStr s =>
        match int_of_str s with
        | Some p => PortInt p
        | None => port
        end
    | PortInt _ => port
    end in
  let obj :=
    match port with
    | PortInt p => all_servers !! (host, p, protocol)
    | PortStr _ => None
    end in
  match obj with
  | Some obj => ret (all_servers, obj)
  | None => __init__ all_servers host port protocol
  end.

End Unique.

(** How [session.run()] ended inside [connect]. *)
Inductive run_error :=
  | Disconnect (error : DisconnectSessionError.t)
  | Transient   (* RPCError, BatchError, TaskTimeout *)
  | Uncaught.

Inductive outcome :=
  | ConnectorRaised   (* OSError or SOCKSError before any session *)
  | SessionRan (established : bool) (ended : option run_error).

(** [SVSession.disconnect(reason, blacklist=...)] on the server state;
    [now] is the value of [time.time()] there. *)
Definition disconnect (st : SVServerState.t) (blacklist : bool) (now : Q)
  : SVServerState.t :=
  if blacklist then SVServerState.set_last_blacklisted st now else st.

Definition backoff (retry_delay : Z) : Z :=
  Z.max 10 (Z.min (retry_delay * 2 + 1) 600).

(** [connect]: the effect on [self.state].  [established] tells whether
    [run] reached [self.server.state.retry_delay = 0]. *)
Definition connect (st : SVServerState.t) (now : Q) (o : outcome)
    (now_end : Q) : SVServerState.t :=
  let st :=
    SVServerState.set_retry_delay st
      (backoff (SVServerState.retry_delay st)) in
  let st := SVServerState.set_last_try st now in
  match o with
  | ConnectorRaised => st
  | SessionRan established ended =>
      let st :=
        if established then SVServerState.set_retry_delay st 0 else st in
      match ended with
      | Some (Disconnect error) =>
          disconnect st (DisconnectSessionError.blacklist error) now_end
      | Some Transient => disconnect st false now_end
      | Some Uncaught | None => st
      end
  end.

Definition failed (o : outcome) : bool :=
  match o with
  | ConnectorRaised => true
  | SessionRan established _ => negb established
  end.

(** Successive calls of [connect] on one server; each attempt comes with
    its two clock readings. *)
Definition attempts (st : SVServerState.t) (os : list (Q * outcome * Q))
  : SVServerState.t :=
  fold_left (fun st '(now, o, now_end) => connect st now o now_end) os st.

(** The recurrence of the specification:
    [r_{k+1} = clamp(2 r_k + 1, 10, 600)], [r_0 = 0]. *)
Definition clamp (x lo hi : Z) : Z :=
  if x <? lo then lo else if hi <? x then hi else x.

Fixpoint r (k : nat) : Z :=
  match k with
  | O => 0
  | S k => clamp (2 * r k + 1) 10 600
  end.

(** [to_json]: [(self.host, self.port, self.protocol, self.state)] *)
Definition to_json (self : t) : string * Z * string * SVServerState.t :=
  (host self, port self, protocol self, state self).

(** [s.split(sep, maxsplit)] for a separator of one character. *)
Fixpoint split (sep : ascii) (s : string) (maxsplit : nat) : list string :=
  match s with
  | EmptyString => [EmptyString]
  | String c s' =>
      match maxsplit with
      | O => [s]
      | S maxsplit' =>
          if Ascii.eqb c sep then EmptyString :: split sep s' maxsplit'
          else
            match split sep s' maxsplit with
            | [] => [String c EmptyString]
            | word :: words => String c word :: words
            end
      end
  end.

Section FromText.

Variable int_of_str : string -> option Z.

(** [from_string]: [cls.unique] applied to the parts of
    [s.split(':', 3)]; a call with fewer or more than three arguments
    raises [TypeError]. *)
Definition from_string (all_servers : registry) (s : string)
  : result (registry * t) :=
  match split ":" s 3 with
  | [host; port; protocol] =>
      unique int_of_str all_servers host (PortStr port) protocol
  | _ => raise TypeError
  end.

(** [from_json] on a tuple as [to_json] builds it: [unique], then
    [result.state = state] on the interned object, which the registry
    holds under the key that [unique] looked up. *)
Definition from_json (all_servers : registry)
    (hpps : string * Z * string * SVServerState.t)
  : result (registry * t) :=
  let '(host, port, protocol, state) := hpps in
  let* found := unique int_of_str all_servers host (PortInt port) protocol in
  let '(all_servers, result) := found in
  let result :=
    mk (SVServer.host result) (SVServer.port result)
       (SVServer.protocol result) state in
  ret (<[(host, port, protocol) := result]> all_servers, result).

End FromText.

(** [protocol_text] *)
Definition protocol_text (self : t) : string :=
  if String.eqb (protocol self) "s" then "SSL" else "TCP".

(** The registry as the code builds it: every server is stored under its
    own [(host, port, protocol)], its host is not empty and its protocol
    passed the test of [__init__]. *)
Definition interned (all_servers : registry) : Prop :=
  forall key server,
    all_servers !! key = Some server ->
    key = (host server, port server, protocol server)
    /\ host server <> ""
    /\ str_in (protocol server) "st" = true.


End SVServer.

(** ** SVSession *)

Definition HEADER_SIZE : Z := 80.
Definition SCRIPTHASH_SUBSCRIBE : string := "blockchain.scripthash.subscribe".
Definition SCRIPTHASH_UNSUBSCRIBE : string :=
  "blockchain.scripthash.unsubscribe".

(** A JSON-RPC request as handed to [send_request]. *)
Inductive arg := AInt (z : Z) | AStr (s : string).
Record request := Request { method : string; params : list arg }.

Module SVSession.

(** The attributes of a session that the code below reads. *)
Record t := mk {
  server : string * Z * string;   (* identity of the interned SVServer *)
  tip_height : Z;                 (* [self.tip.height] *)
  ptuple : list Z
}.

(** *** Header chunks *)

(** The decoded reply to [blockchain.block.headers]; a missing key or a
    value of the wrong shape is [None]. *)
Record headers_reply := HeadersReply {
  reply_count : option number;
  reply_hex : option bytes;
  reply_root : option string;
  reply_branch : option (list bytes)
}.

Section RequestChunk.

Variable chain : Type.
(** [app_state.headers.checkpoint.height] *)
Variable checkpoint_height : Z.
(** [self._check_header_proof] and [self._connect_chunk]; both depend
    on the header store and the network constants. *)
Variable _check_header_proof :
  string -> list bytes -> bytes -> number -> result unit.
Variable _connect_chunk : Z -> bytes -> result chain.

Definition get {A} (key : string) (field : option A) : result A :=
  match field with
  | Some v => ret v
  | None => raise (KeyError key)
  end.

(** The first lines of [_request_chunk]: the [cp_height] that goes
    into the request. *)
Definition request_cp_height (height count : Z) : Z :=
  let cp_height := checkpoint_height in
  if height + count >=? cp_height then 0 else cp_height.

(** [hex_root = result['root']] and the two lines after it, under
    [if cp_height]. *)
Definition check_chunk_proof (cp_height : Z) (reply : headers_reply)
    (raw_chunk : bytes) (last_height : number) : result unit :=
  if negb (cp_height =? 0) then
    let* hex_root := get "root" (reply_root reply) in
    let* branch := get "branch" (reply_branch reply) in
    _check_header_proof hex_root branch
      (drop (length raw_chunk - Z.to_nat HEADER_SIZE) raw_chunk)
      last_height
  else ret tt.

(** The body of the [try] once the reply is known: the chain that
    [self.chain] becomes, and [last_height].

    With a float [rec_count] the arithmetic is that of floats:
    [height + rec_count - 1] converts [height] (exactly, for a height below
    [2^53]; the [OverflowError] of a height of 1024 bits is left out),
    the f-string of the first log line raises [ValueError], and the
    header proof is checked at a float height. *)
Definition process_chunk (height count cp_height : Z)
    (reply : headers_reply) : result (chain * number) :=
  let* rec_count := get "count" (reply_count reply) in
  match rec_count with
  | PyInt rec_count =>
      let last_height := height + rec_count - 1 in
      let* raw_chunk := get "hex" (reply_hex reply) in
      if negb (Z.of_nat (length raw_chunk) =? HEADER_SIZE * rec_count) then
        raise AssertionError
      else
        let* _ := check_chunk_proof cp_height reply raw_chunk last_height in
        let* chain := _connect_chunk height raw_chunk in
        ret (chain, PyInt last_height)
  | PyFloat rec_count =>
      let rec_count := round53 rec_count in
      let last_height :=
        float_sub (float_add (inject_Z height) rec_count) 1 in
      if negb (Qeq_bool (inject_Z count) rec_count) then
        raise (ValueError float_format_error)
      else
        let* raw_chunk := get "hex" (reply_hex reply) in
        if negb
             match float_mul (inject_Z HEADER_SIZE) rec_count with
             | Some size => Qeq_bool (inject_Z (Z.of_nat (length raw_chunk))) size
             | None => false
             end
        then raise AssertionError
        else
          let* _ :=
            check_chunk_proof cp_height reply raw_chunk
              (PyFloat last_height) in
          let* chain := _connect_chunk height raw_chunk in
          ret (chain, PyFloat last_height)
  end.

(** [except (AssertionError, KeyError, TypeError, ValueError,
    IncorrectBits, InsufficientPoW, MissingHeader)] *)
Definition chunk_failure (e : exn) : exn :=
  match e with
  | AssertionError | KeyError _ | TypeError | ValueError _
  | IncorrectBits | InsufficientPoW | MissingHeader _ =>
      DisconnectSession
        (DisconnectSessionError.__init__
           ("blockchain.block.headers failed: " +:+ str_exn e) true)
  | RPCError _ | TaskTimeout | DisconnectSession _ => e
  end.

(** [_request_chunk]: the request sent, and then the new [self.chain]
    with the returned height, or the exception.  The last log line
    formats [rec_count] and [last_height] with [',d'] after the [try]
    statement: where they are floats it raises a [ValueError] that nothing
    catches, [self.chain] being the connected chain already. *)
Definition _request_chunk (height count : Z)
    (server_reply : result headers_reply)
  : request * result (chain * Z) :=
  let cp_height := request_cp_height height count in
  let sent :=
    Request "blockchain.block.headers"
            [AInt height; AInt count; AInt cp_height] in
  (sent,
   match (let* reply := server_reply in
          process_chunk height count cp_height reply) with
   | inl e => raise (chunk_failure e)
   | inr (chain, PyInt last_height) => ret (chain, last_height)
   | inr (_, PyFloat _) => raise (ValueError float_format_error)
   end).

End RequestChunk.

(** *** Checkpoint headers and catching up *)

(** The [for height in range(...)] loop of
    [_required_checkpoint_headers]: the first height at which
    [header_at_height] raises [MissingHeader]. *)
Fixpoint first_missing (has_header : Z -> bool) (heights : list Z)
  : option Z :=
  match heights with
  | [] => None
  | height :: heights' =>
      if has_header height then first_missing has_header heights'
      else Some height
  end.

(** [_required_checkpoint_headers]: the new value of the class flag
    [_need_checkpoint_headers] and the pair returned.  [has_header height]
    tells whether the longest chain of the store has a header there. *)
Definition _required_checkpoint_headers (_need_checkpoint_headers : bool)
    (cp_height : Z) (has_header : Z -> bool) : bool * (Z * Z) :=
  if _need_checkpoint_headers then
    if cp_height =? 0 then (false, (0, 0))
    else
      match first_missing has_header (seqZ (cp_height - 146) 146) with
      | Some height => (true, (height, cp_height - height))
      | None => (false, (0, 0))
      end
  else (false, (0, 0)).

(** The [while height > cp_height] loop of [_catch_up_to_tip]; [step]
    starts at 1 and doubles, so it is positive. *)
Equations? probe_loop (cp_height height : Z) (step : positive) : list Z
  by wf (Z.to_nat (height - cp_height)) lt :=
  probe_loop cp_height height step with decide (height > cp_height) := {
    | left _ =>
        height :: probe_loop cp_height (height - Z.pos step)
                    (step + step)%positive
    | right _ => []
  }.
Proof. lia. Qed.

(** The list [heights] that [_catch_up_to_tip] requests; [max_height] is
    the greatest height of the chains of the store. *)
Definition catch_up_heights (cp_height tip_height max_height : Z) : list Z :=
  (cp_height + 1) :: probe_loop cp_height (Z.min tip_height max_height) 1.

(** One entry of [batch.results] for [blockchain.block.header]: a [str],
    or a [dict] with its fields decoded; a field that cannot be read is
    the exception that reading it raises. *)
Inductive header_result :=
  | HeaderStr (raw_header : result bytes)
  | HeaderDict (root : result string) (branch : result (list bytes))
               (header : result bytes).

Section RequestHeaders.

Variable chain : Type.
(** [Net.CHECKPOINT.height] *)
Variable cp_height : Z.
Variable _check_header_proof :
  string -> list bytes -> bytes -> Z -> result unit.
Variable _connect_header : Z -> bytes -> result chain.

(** [sorted(set(heights))] *)
Definition sorted_set (heights : list Z) : list Z :=
  merge_sort Z.le (elements (list_to_set heights : gset Z)).

Definition header_request (height : Z) : request :=
  Request "blockchain.block.header"
          [AInt height; AInt (if height <=? cp_height then cp_height else 0)].

(** The body of the [for result, height in zip(...)] loop; [reply] is
    [result]. *)
Definition connect_result (reply : header_result) (height : Z)
  : result chain :=
  let* raw_header :=
    (if height <=? cp_height then
       match reply with
       | HeaderDict root branch header =>
           let* hex_root := root in
           let* branch := branch in
           let* raw_header := header in
           let* _ := _check_header_proof hex_root branch raw_header height in
           ret raw_header
       | HeaderStr _ => raise TypeError
       end
     else
       match reply with
       | HeaderStr raw_header => raw_header
       | HeaderDict _ _ _ => raise TypeError
       end) in
  _connect_header height raw_header.


(** [except (AssertionError, KeyError, TypeError, ValueError)] *)
Definition headers_failure (e : exn) : exn :=
  match e with
  | AssertionError | KeyError _ | TypeError | ValueError _ =>
      DisconnectSession
        (DisconnectSessionError.__init__
           ("bad blockchain.block.header response: " +:+ str_exn e) false)
  | MissingHeader _ | IncorrectBits | InsufficientPoW | RPCError _
  | TaskTimeout | DisconnectSession _ => e
  end.


(** The loop under [try]: [self.chain] and [good_height] when it ends,
    and the exception that leaves the [try] statement, if any.
    [MissingHeader] ends the loop and is swallowed. *)
Fixpoint headers_loop (items : list (header_result * Z))
    (self_chain : option chain) (good_height : Z)
  : option chain * Z * result unit :=
  match items with
  | [] => (self_chain, good_height, ret tt)
  | (reply, height) :: items' =>
      match connect_result reply height with
      | inr new_chain => headers_loop items' (Some new_chain) height
      | inl (MissingHeader _) => (self_chain, good_height, ret tt)
      | inl e => (self_chain, good_height, raise (headers_failure e))
      end
  end.

(** [max((height for height in heights if height <= cp_height),
    default=-1)] *)
Definition min_good_height (heights : list Z) : Z :=
  match List.filter (fun height => height <=? cp_height) heights with
  | [] => -1
  | h :: hs => fold_left Z.max hs h
  end.

(** [_request_headers_at_heights]: the batch sent, [self.chain]
    afterwards, and the height returned or the exception.  [batch_reply]
    is [batch.results], or the exception the batch raises. *)
Definition _request_headers_at_heights (self_chain : option chain)
    (heights : list Z) (batch_reply : result (list header_result))
  : list request * option chain * result Z :=
  let heights := sorted_set heights in
  let sent := header_request <$> heights in
  match batch_reply with
  | inl e => (sent, self_chain, raise e)
  | inr results =>
      let '(self_chain, good_height, res) :=
        headers_loop (zip results heights) self_chain (-1) in
      (sent, self_chain,
       let* _ := res in
       if good_height <? min_good_height heights then
         raise (DisconnectSession
                  (DisconnectSessionError.__init__
                     "cannot connect to checkpoint" true))
       else ret good_height)
  end.

End RequestHeaders.

Section HeaderProof.

Variable double_sha256 : bytes -> bytes.
(** [Net.VERIFICATION_BLOCK_MERKLE_ROOT] *)
Variable VERIFICATION_BLOCK_MERKLE_ROOT : string.
(** [Net.COIN.deserialized_header(raw_header, height).hash], or the
    exception raised for a raw header that cannot be read. *)
Variable header_hash : bytes -> Z -> result bytes.
(** [bitcoinx.hash_to_hex_str] *)
Variable hash_to_hex_str : bytes -> string.

Definition _check_header_proof (hex_root : string) (branch : list bytes)
    (raw_header : bytes) (height : Z) : result unit :=
  let expected_root := VERIFICATION_BLOCK_MERKLE_ROOT in
  if negb (String.eqb hex_root expected_root) then
    raise (DisconnectSession
             (DisconnectSessionError.__init__
                ("bad header merkle root " +:+ hex_root +:+ " expected "
                 +:+ expected_root) true))
  else
    let* hash := header_hash raw_header height in
    let* root := _root_from_proof double_sha256 hash branch height in
    let proven_root := hash_to_hex_str root in
    if negb (String.eqb proven_root expected_root) then
      raise (DisconnectSession
               (DisconnectSessionError.__init__
                  ("invalid header proof " +:+ proven_root +:+ " expected "
                   +:+ expected_root) true))
    else ret tt.

End HeaderProof.


(** *** Script-hash subscriptions *)

(** The class attributes [_subs_by_wallet] and [_address_map].  A wallet
    is known by its identity, an address by its text. *)
Record tables := Tables {
  _subs_by_wallet : gmap nat (list string);
  _address_map : gmap string string
}.

Definition subscribe_request (script_hash : string) : request :=
  Request SCRIPTHASH_SUBSCRIBE [AStr script_hash].
Definition unsubscribe_request (script_hash : string) : request :=
  Request SCRIPTHASH_UNSUBSCRIBE [AStr script_hash].

(** The [for address, script_hash in pairs] loop of
    [subscribe_to_pairs]. *)
Definition subscribe_step
    (acc : list string * gmap string string * list request)
    (pair : string * string)
  : list string * gmap string string * list request :=
  let '(subs, address_map, sent) := acc in
  let '(address, script_hash) := pair in
  (subs ++ [script_hash],
   <[script_hash := address]> address_map,
   sent ++ [subscribe_request script_hash]).

(** [assert len(set(subs)) == len(subs)] *)
Definition no_double_subscription (subs : list string) : bool :=
  bool_decide (size (list_to_set subs : gset string) = length subs).

(** [subscribe_to_pairs]: the tables afterwards, the requests spawned,
    and whether the final assertion held.  The replies are taken to
    arrive without error and nothing else runs in between. *)
Definition subscribe_to_pairs (tb : tables) (wallet : nat)
    (pairs : list (string * string))
  : tables * list request * result unit :=
  let subs_by_wallet :=
    match _subs_by_wallet tb !! wallet with
    | Some _ => _subs_by_wallet tb
    | None => <[wallet := []]> (_subs_by_wallet tb)
    end in
  let subs := default [] (subs_by_wallet !! wallet) in
  let '(subs, address_map, sent) :=
    fold_left subscribe_step pairs (subs, _address_map tb, []) in
  (Tables (<[wallet := subs]> subs_by_wallet) address_map,
   sent,
   if no_double_subscription subs then ret tt else raise AssertionError).

(** [_get_exclusive_set] *)
Definition _get_exclusive_set (subs_by_wallet : gmap nat (list string))
    (wallet : nat) (subs : list string) : gset string :=
  fold_left
    (fun subs_set '(other_wallet, other_subs) =>
       if decide (other_wallet = wallet) then subs_set
       else subs_set ∖ list_to_set other_subs)
    (map_to_list subs_by_wallet)
    (list_to_set subs).

(** [subs.remove(x)] for an [x] that is in [subs]: the first occurrence
    goes. *)
Fixpoint list_remove_first (x : string) (subs : list string)
  : list string :=
  match subs with
  | [] => []
  | y :: subs' =>
      if decide (x = y) then subs' else y :: list_remove_first x subs'
  end.

(** The loop of [unsubscribe_from_pairs]; [del self._address_map[...]]
    raises [KeyError] on a missing key and ends the loop. *)
Fixpoint unsubscribe_loop (exclusive_subs : gset string)
    (pairs : list (string * string))
    (subs : list string) (address_map : gmap string string)
    (sent : list request)
  : list string * gmap string string * list request * result unit :=
  match pairs with
  | [] => (subs, address_map, sent, ret tt)
  | (address, script_hash) :: pairs' =>
      if negb (bool_decide (script_hash ∈ exclusive_subs)) then
        unsubscribe_loop exclusive_subs pairs' subs address_map sent
      else if negb (bool_decide (script_hash ∈ subs)) then
        unsubscribe_loop exclusive_subs pairs' subs address_map sent
      else
        let subs := list_remove_first script_hash subs in
        match address_map !! script_hash with
        | None => (subs, address_map, sent, raise (KeyError script_hash))
        | Some _ =>
            unsubscribe_loop exclusive_subs pairs' subs
              (delete script_hash address_map)
              (sent ++ [unsubscribe_request script_hash])
        end
  end.

(** [unsubscribe_from_pairs] on the session [self]. *)
Definition unsubscribe_from_pairs (self : t) (tb : tables) (wallet : nat)
    (pairs : list (string * string))
  : tables * list request * result unit :=
  match _subs_by_wallet tb !! wallet with
  | None => (tb, [], raise (KeyError (pretty wallet)))
  | Some subs =>
      let exclusive_subs :=
        _get_exclusive_set (_subs_by_wallet tb) wallet subs in
      let '(subs, address_map, sent, res) :=
        unsubscribe_loop exclusive_subs pairs subs (_address_map tb) [] in
      (Tables (<[wallet := subs]> (_subs_by_wallet tb)) address_map,
       sent, res)
  end.

(** [unsubscribe_wallet(wallet, session)]; [session] is [None] when
    there is no main session.  The set is iterated in the order of
    [elements]. *)
Definition unsubscribe_wallet (tb : tables) (wallet : nat)
    (session : option t) : tables * list request :=
  match _subs_by_wallet tb !! wallet with
  | None => (tb, [])
  | Some subs =>
      let tb := Tables (delete wallet (_subs_by_wallet tb))
                       (_address_map tb) in
      match session with
      | None => (tb, [])
      | Some session =>
          let exclusive_subs :=
            _get_exclusive_set (_subs_by_wallet tb) wallet subs in
          if bool_decide (exclusive_subs = ∅) then (tb, [])
          else if tuple_ltb (ptuple session) [1; 4; 2] then (tb, [])
          else (tb, unsubscribe_request <$> elements exclusive_subs)
      end
  end.





(** The address map after the assignments
    [self._address_map[script_hash] = address] of [subscribe_to_pairs]. *)
Definition with_pairs (address_map : gmap string string)
    (pairs : list (string * string)) : gmap string string :=
  fold_left (fun m pair => <[pair.2 := pair.1]> m) pairs address_map.

(** The invariant of the two tables: every subscribed script hash has
    its address. *)
Definition addresses_known (tb : tables) : Prop :=
  forall wallet subs script_hash,
    _subs_by_wallet tb !! wallet = Some subs ->
    script_hash ∈ subs ->
    is_Some (_address_map tb !! script_hash).


End SVSession.

(** ** Network *)

Module Network.

Record t := mk {
  sessions : list SVSession.t;
  main_server : string * Z * string;
  auto_connect : bool
}.

(** What the last lines of [_maybe_switch_main_server] do. *)
Inductive verdict :=
  | NoGoodServers                       (* warning logged *)
  | MainServerGood
  | SwitchToOneOf (good_servers : list (string * Z * string))
                                        (* [random.choice(good_servers)] *)
  | RetainMainServer.                   (* warning logged *)

(** [max((session.tip.height for session in self.sessions), default=0)] *)
Definition max_height (sessions : list SVSession.t) : Z :=
  match SVSession.tip_height <$> sessions with
  | [] => 0
  | h :: hs => fold_left Z.max hs h
  end.

Definition refresh (now : Q) (server : SVServer.t) : SVServer.t :=
  SVServer.mk (SVServer.host server) (SVServer.port server)
    (SVServer.protocol server)
    (SVServerState.set_last_good (SVServer.state server) now).

(** The first loop: [session.server.state.last_good = now] for every
    session that passes the height test.  The server objects live in
    [all_servers]; two sessions on one server share its state. *)
Definition mark_good (all_servers : SVServer.registry)
    (sessions : list SVSession.t) (max_height : Z) (now : Q)
  : SVServer.registry :=
  fold_left
    (fun servers session =>
       if SVSession.tip_height session >? max_height - 2
       then alter (refresh now) (SVSession.server session) servers
       else servers)
    sessions all_servers.

Definition is_good (all_servers : SVServer.registry) (now : Q)
    (session : SVSession.t) : bool :=
  match all_servers !! SVSession.server session with
  | Some server =>
      Qgtb (SVServerState.last_good (SVServer.state server))
           (now - inject_Z 60)%Q
  | None => false
  end.

Definition _maybe_switch_main_server (self : t)
    (all_servers : SVServer.registry) (now : Q)
  : SVServer.registry * verdict :=
  let max_height := max_height (sessions self) in
  let all_servers := mark_good all_servers (sessions self) max_height now in
  let good_servers :=
    SVSession.server <$>
      List.filter (is_good all_servers now) (sessions self) in
  (all_servers,
   match good_servers with
   | [] => NoGoodServers
   | _ :: _ =>
       if negb (bool_decide (main_server self ∈ good_servers)) then
         if auto_connect self then SwitchToOneOf good_servers
         else RetainMainServer
       else MainServerGood
   end).

(** [_available_servers(protocol)] at time [now]: the interned servers
    that are not in [self.chosen_servers], speak [protocol] and can be
    retried.  A set of servers is the set of their keys; the result is
    listed in the order of [map_to_list]. *)
Definition _available_servers (all_servers : SVServer.registry)
    (chosen_servers : gset (string * Z * string)) (protocol : string)
    (now : Q) : list SVServer.t :=
  let unchosen :=
    List.filter (fun item => negb (bool_decide (item.1 ∈ chosen_servers)))
                (map_to_list all_servers) in
  List.filter
    (fun server =>
       String.eqb (SVServer.protocol server) protocol
       && SVServerState.can_retry (SVServer.state server) now)
    (unchosen.*2).


End Network.

(** ** Broadcast failures *)

Section Broadcast.

(** [i18n._], the translation of a message. *)
Variable _tr : string -> string.

Definition quote : string := String (Ascii.ascii_of_nat 34) EmptyString.

(** [BROADCAST_TX_MSG_LIST]: the text or texts looked for, and the reason
    reported. *)
Definition BROADCAST_TX_MSG_LIST : list ((string + list string) * string) :=
  [ (inl "dust",
     _tr ("very small " +:+ quote +:+ "dust" +:+ quote +:+ " payments"));
    (inr ["Missing inputs"; "Inputs unavailable"; "bad-txns-inputs-spent"],
     _tr "missing, already-spent, or otherwise invalid coins");
    (inl "insufficient priority", _tr "insufficient fees or priority");
    (inl "bad-txns-premature-spend-of-coinbase",
     _tr "attempt to spend an unmatured coinbase");
    (inr ["txn-already-in-mempool"; "txn-already-known"],
     _tr "it already exists in the server's mempool");
    (inl "txn-mempool-conflict",
     _tr "it conflicts with one already in the server's mempool");
    (inl "bad-txns-nonstandard-inputs",
     _tr "use of non-standard input scripts");
    (inl "absurdly-high-fee", _tr "fee is absurdly high");
    (inl "non-mandatory-script-verify-flag",
     _tr "the script fails verification");
    (inl "tx-size", _tr "transaction is too large");
    (inl "scriptsig-size", _tr "it contains an oversized script");
    (inl "scriptpubkey", _tr "it contains a non-standard signature");
    (inl "bare-multisig", _tr "it contains a bare multisig input");
    (inl "multi-op-return", _tr "it contains more than 1 OP_RETURN input");
    (inl "scriptsig-not-pushonly", _tr "a scriptsig is not simply data");
    (inl "bad-txns-nonfinal", _tr "transaction is not final") ].

(** [if isinstance(in_msgs, str): in_msgs = (in_msgs, )] *)
Definition as_tuple (in_msgs : string + list string) : list string :=
  match in_msgs with
  | inl in_msg => [in_msg]
  | inr in_msgs => in_msgs
  end.

(** The [for in_msgs, out_msg in BROADCAST_TX_MSG_LIST] loop. *)
Fixpoint first_reason (msg : string)
    (rules : list ((string + list string) * string)) : option string :=
  match rules with
  | [] => None
  | (in_msgs, out_msg) :: rules' =>
      if existsb (fun in_msg => str_in in_msg msg) (as_tuple in_msgs)
      then Some out_msg
      else first_reason msg rules'
  end.

Definition broadcast_failure_reason (exception : exn) : string :=
  match
    match exception with
    | RPCError msg => first_reason msg BROADCAST_TX_MSG_LIST
    | _ => None
    end
  with
  | Some out_msg => out_msg
  | None => _tr "reason unknown"
  end.

End Broadcast.


(** * Properties *)

(** ** Helper facts on numbers *)

Lemma Qltb_lt (x y : Q) : Qltb x y = true <-> (x < y)%Q.
Proof.
  unfold Qltb. rewrite negb_true_iff, <- not_true_iff_false, Qle_bool_iff.
  split; [apply Qnot_le_lt | apply Qlt_not_le].
Qed.

Lemma Qltb_ge (x y : Q) : Qltb x y = false <-> (y <= x)%Q.
Proof.
  unfold Qltb. rewrite negb_false_iff. apply Qle_bool_iff.
Qed.

Lemma int_inject_Z (z : Z) : int (inject_Z z) = z.
Proof. unfold int. simpl. apply Z.quot_1_r. Qed.

Lemma int_of_integer (x : Q) (z : Z) :
  (x == inject_Z z)%Q -> (inject_Z (int x) == x)%Q.
Proof.
  unfold Qeq, int. simpl. rewrite !Z.mul_1_r. intros ->.
  rewrite Z.quot_mul by discriminate. reflexivity.
Qed.

Lemma land_1_odd (index : Z) : negb (Z.land index 1 =? 0) = Z.odd index.
Proof.
  change 1 with (Z.ones 1). rewrite Z.land_ones by lia.
  change (2 ^ 1) with 2. rewrite Zmod_odd. by destruct (Z.odd index).
Qed.

Lemma shiftr_1_half (index : Z) : Z.shiftr index 1 = index / 2.
Proof. rewrite Z.shiftr_div_pow2 by lia. reflexivity. Qed.

(** ** ProofMath *)

Section ProofMathFacts.

Variable double_sha256 : bytes -> bytes.

Lemma root_loop_fold (branch : list bytes) (hash : bytes) (index : Z) :
  root_loop double_sha256 hash branch index
  = fold_left (merkle_step double_sha256) branch (hash, index).
Proof.
  revert hash index.
  induction branch as [|elt branch IH]; intros hash index; [done|].
  cbn [root_loop fold_left merkle_step].
  rewrite IH, land_1_odd, shiftr_1_half. reflexivity.
Qed.

Lemma root_loop_index (branch : list bytes) (hash : bytes) (index : Z) :
  (root_loop double_sha256 hash branch index).2
  = Z.shiftr index (Z.of_nat (length branch)).
Proof.
  revert hash index.
  induction branch as [|elt branch IH]; intros hash index.
  - simpl. by rewrite Z.shiftr_0_r.
  - cbn [root_loop length]. rewrite IH, Z.shiftr_shiftr by lia.
    f_equal. lia.
Qed.

(** C4.  [_root_from_proof] is the fold of the specification: each sibling
    replaces the running hash by [dsha256(elt || hash)] when the index is
    odd and by [dsha256(hash || elt)] when it is even, and halves the
    index.  It raises [ValueError] exactly when the index, shifted right
    once per sibling, is not zero at the end.  In particular the empty
    branch with index 0 returns the leaf, and the empty branch with index
    3 raises. *)
Theorem root_from_proof_is_merkle_fold
    (hash : bytes) (branch : list bytes) (index : Z) :
  match _root_from_proof double_sha256 hash branch index with
  | inr root =>
      merkle_root_from_branch double_sha256 hash branch index = Some root
      /\ Z.shiftr index (Z.of_nat (length branch)) = 0
  | inl e =>
      merkle_root_from_branch double_sha256 hash branch index = None
      /\ (Z.shiftr index (Z.of_nat (length branch)) =? 0) = false
      /\ exists msg, e = ValueError msg
  end
  /\ _root_from_proof double_sha256 hash [] 0 = inr hash
  /\ raises (_root_from_proof double_sha256 hash [] 3).
Proof.
  split; [|split; [reflexivity | exact I]].
  unfold _root_from_proof, merkle_root_from_branch.
  pose proof (root_loop_index branch hash index) as Hidx.
  rewrite <- root_loop_fold.
  destruct (root_loop double_sha256 hash branch index) as [root index'].
  simpl in Hidx. subst index'.
  destruct (Z.eqb_spec (Z.shiftr index (Z.of_nat (length branch))) 0)
    as [Hz|Hnz]; simpl.
  - rewrite decide_True by done. done.
  - rewrite decide_False by done. eauto.
Qed.

End ProofMathFacts.

(** ** DisconnectSessionError *)

(** C1.  The constructor drops its [blacklist] argument: whatever the
    caller passes, the exception carries [blacklist = False]; so with
    [blacklist=True] the attribute differs from the argument, and the
    handler in [SVServer.connect] leaves [last_blacklisted] untouched. *)
Theorem disconnect_error_drops_blacklist (reason : string) (b : bool) :
  DisconnectSessionError.blacklist (DisconnectSessionError.__init__ reason b)
  = false
  /\ SVServerState.last_blacklisted
       (SVServer.connect SVServerState.__init__ 100%Q
          (SVServer.SessionRan false
             (Some (SVServer.Disconnect
                (DisconnectSessionError.__init__ reason true))))
          101%Q)
     = 0%Q.
Proof. split; reflexivity. Qed.

(** ** Float rounding

    [round53] is monotone and leaves a float as it is; an [int] below
    [2^53] is a float. *)

Lemma rne_floor (t : Q) : Qfloor t <= rne t <= Qfloor t + 1.
Proof.
  unfold rne. destruct (_ ?= _)%Q; [destruct (Z.even _)|..]; lia.
Qed.

Lemma rne_inject_Z (n : Z) : rne (inject_Z n) = n.
Proof.
  unfold rne. rewrite Qfloor_Z.
  replace (inject_Z n - inject_Z n ?= 1 # 2)%Q with Lt; [done|].
  symmetry. apply (proj1 (Qlt_alt _ _)). lra.
Qed.

Lemma rne_le (x y : Q) : (x <= y)%Q -> rne x <= rne y.
Proof.
  intros Hxy. pose proof (Qfloor_resp_le _ _ Hxy) as Hf.
  destruct (Z.eq_dec (Qfloor x) (Qfloor y)) as [Heq|Hne].
  - unfold rne. rewrite Heq.
    destruct (x - inject_Z (Qfloor y) ?= 1 # 2)%Q eqn:Hx;
      destruct (y - inject_Z (Qfloor y) ?= 1 # 2)%Q eqn:Hy;
      try (destruct (Z.even (Qfloor y))); try lia;
      exfalso;
      repeat match goal with
        | H : (_ ?= _)%Q = Eq |- _ => apply (proj2 (Qeq_alt _ _)) in H
        | H : (_ ?= _)%Q = Lt |- _ => apply (proj2 (Qlt_alt _ _)) in H
        | H : (_ ?= _)%Q = Gt |- _ => apply (proj2 (Qgt_alt _ _)) in H
        end; lra.
  - pose proof (rne_floor x). pose proof (rne_floor y). lia.
Qed.

Lemma pow2_pos (e : Z) : (0 < 2 ^ e)%Q.
Proof. by apply Qpower_0_lt. Qed.

Lemma pow2_add (a b : Z) : (2 ^ (a + b) == 2 ^ a * 2 ^ b)%Q.
Proof. by apply Qpower_plus. Qed.

Lemma pow2_cancel (e : Z) : (2 ^ (- e) * 2 ^ e == 1)%Q.
Proof. rewrite <- pow2_add. by replace (- e + e) with 0 by lia. Qed.

Lemma pow2_inject_Z (n : Z) : 0 <= n -> (inject_Z (2 ^ n) == 2 ^ n)%Q.
Proof. intros Hn. by rewrite Zpower_Qpower. Qed.

Lemma pow2_succ (e : Z) : (2 ^ (e + 1) == 2 * 2 ^ e)%Q.
Proof. rewrite pow2_add. change (2 ^ 1)%Q with 2%Q. ring. Qed.

Lemma log2_bounds (a : Z) :
  0 < a ->
  (2 ^ Z.log2 a <= inject_Z a)%Q /\ (inject_Z a < 2 * 2 ^ Z.log2 a)%Q.
Proof.
  intros Ha. destruct (Z.log2_spec a Ha) as [Hlo Hhi].
  pose proof (Z.log2_nonneg a) as Hnn.
  rewrite <- pow2_succ, <- !pow2_inject_Z by lia.
  rewrite <- Zle_Qle, <- Zlt_Qlt. split; [done|].
  by replace (Z.log2 a + 1) with (Z.succ (Z.log2 a)) by lia.
Qed.

Lemma float_exponent_spec (q : Q) :
  0 < Qnum q ->
  (2 ^ (float_exponent q + 52) <= q)%Q
  /\ (q < 2 ^ (float_exponent q + 53))%Q.
Proof.
  intros Hq. unfold float_exponent.
  set (k := Z.log2 (Qnum q) - Z.log2 (Z.pos (Qden q))).
  destruct (log2_bounds (Qnum q) Hq) as [Ha1 Ha2].
  destruct (log2_bounds (Z.pos (Qden q)) ltac:(done)) as [Hb1 Hb2].
  assert (q * inject_Z (Z.pos (Qden q)) == inject_Z (Qnum q))%Q as Hqb.
  { unfold Qeq, Qmult, inject_Z. simpl. lia. }
  assert (2 ^ k * 2 ^ Z.log2 (Z.pos (Qden q)) == 2 ^ Z.log2 (Qnum q))%Q
    as Hk.
  { rewrite <- pow2_add. unfold k.
    by replace (Z.log2 (Qnum q) - Z.log2 (Z.pos (Qden q))
                + Z.log2 (Z.pos (Qden q))) with (Z.log2 (Qnum q)) by lia. }
  pose proof (pow2_pos k) as HK.
  pose proof (pow2_pos (Z.log2 (Z.pos (Qden q)))) as HPB.
  pose proof (pow2_succ k) as Hs.
  pose proof (pow2_succ (k - 1)) as Hp.
  replace (k - 1 + 1) with k in Hp by lia.
  set (K := (2 ^ k)%Q) in *. set (K' := (2 ^ (k - 1))%Q) in *.
  set (PB := (2 ^ Z.log2 (Z.pos (Qden q)))%Q) in *.
  set (PA := (2 ^ Z.log2 (Qnum q))%Q) in *.
  set (A := inject_Z (Qnum q)) in *. set (B := inject_Z (Z.pos (Qden q))) in *.
  assert (q < 2 * K)%Q as Hhi.
  { apply (Qmult_lt_r _ _ B); [lra|]. nra. }
  assert (K < 2 * q)%Q as Hlo.
  { apply (Qmult_lt_r _ _ B); [lra|]. nra. }
  destruct (Qle_bool K q) eqn:Hc.
  - apply Qle_bool_iff in Hc.
    replace (k - 52 + 52) with k by lia.
    replace (k - 52 + 53) with (k + 1) by lia.
    fold K. rewrite Hs. split; lra.
  - assert (q < K)%Q as Hlt.
    { apply Qnot_le_lt. intros H. apply Qle_bool_iff in H. congruence. }
    replace (k - 1 - 52 + 52) with (k - 1) by lia.
    replace (k - 1 - 52 + 53) with k by lia.
    fold K K'. split; lra.
Qed.

Lemma Qnum_pos (q : Q) : 0 < Qnum q <-> (0 < q)%Q.
Proof. unfold Qlt. simpl. lia. Qed.

Lemma mantissa_bounds (q : Q) :
  0 < Qnum q ->
  2 ^ 52 <= rne (q * 2 ^ (- float_exponent q)) <= 2 ^ 53.
Proof.
  intros Hq. destruct (float_exponent_spec q Hq) as [Hlo Hhi].
  set (e := float_exponent q) in *.
  pose proof (pow2_pos (- e)) as He.
  rewrite <- (rne_inject_Z (2 ^ 52)), <- (rne_inject_Z (2 ^ 53)).
  split; apply rne_le; rewrite pow2_inject_Z by lia.
  - replace 52 with (e + 52 + - e) by lia. rewrite pow2_add.
    apply Qmult_le_compat_r; [done | lra].
  - replace 53 with (e + 53 + - e) by lia. rewrite pow2_add.
    apply Qmult_le_compat_r; lra.
Qed.

Lemma round_pos_le (x y : Q) :
  0 < Qnum x -> (x <= y)%Q -> (round_pos x <= round_pos y)%Q.
Proof.
  intros Hx Hxy.
  assert (0 < Qnum y) as Hy.
  { apply Qnum_pos. apply Qnum_pos in Hx. lra. }
  destruct (float_exponent_spec x Hx) as [Hx1 Hx2].
  destruct (float_exponent_spec y Hy) as [Hy1 Hy2].
  pose proof (mantissa_bounds x Hx) as [_ Hmx].
  pose proof (mantissa_bounds y Hy) as [Hmy _].
  unfold round_pos.
  set (ex := float_exponent x) in *. set (ey := float_exponent y) in *.
  assert (ex + 52 < ey + 53) as Hlt.
  { apply (Qpower_lt_compat_l_inv 2); [lra | reflexivity]. }
  pose proof (pow2_pos ex) as Hpx. pose proof (pow2_pos ey) as Hpy.
  destruct (Z.eq_dec ex ey) as [<-|Hne].
  - apply Qmult_le_compat_r; [|lra].
    rewrite <- Zle_Qle. apply rne_le.
    pose proof (pow2_pos (- ex)). apply Qmult_le_compat_r; lra.
  - apply Qle_trans with (inject_Z (2 ^ 53) * 2 ^ ex)%Q.
    { apply Qmult_le_compat_r; [|lra]. by rewrite <- Zle_Qle. }
    apply Qle_trans with (inject_Z (2 ^ 52) * 2 ^ ey)%Q.
    2: { apply Qmult_le_compat_r; [|lra]. by rewrite <- Zle_Qle. }
    rewrite !pow2_inject_Z, <- !pow2_add by lia.
    apply Qpower_le_compat_l; [lia | lra].
Qed.

Lemma round_pos_pos (q : Q) : 0 < Qnum q -> (0 < round_pos q)%Q.
Proof.
  intros Hq. pose proof (mantissa_bounds q Hq) as [Hm _].
  unfold round_pos. apply Qmult_lt_0_compat; [|apply pow2_pos].
  replace 0%Q with (inject_Z 0) by done. rewrite <- Zlt_Qlt. lia.
Qed.

Lemma round53_le (x y : Q) : (x <= y)%Q -> (round53 x <= round53 y)%Q.
Proof.
  intros Hxy. unfold round53.
  destruct x as [nx dx], y as [ny dy].
  assert (forall n d, 0 < Qnum (- (Z.neg n # d))) as Hneg by done.
  destruct nx as [|nx|nx], ny as [|ny|ny]; cbn [Qnum]; try lra;
    try (by exfalso; revert Hxy; unfold Qle; simpl; lia);
    try (pose proof (round_pos_pos (Z.pos ny # dy) ltac:(done)); lra);
    try (pose proof (round_pos_pos (- (Z.neg nx # dx)) ltac:(done)); lra).
  - by apply round_pos_le.
  - pose proof (round_pos_pos (Z.pos ny # dy) ltac:(done)).
    pose proof (round_pos_pos (- (Z.neg nx # dx)) ltac:(done)). lra.
  - apply Qopp_le_compat. apply round_pos_le; [done|].
    by apply Qopp_le_compat.
Qed.

Lemma round53_ge_float (t x : Q) :
  is_float t -> (t <= x)%Q -> (t <= round53 x)%Q.
Proof.
  unfold is_float. intros Ht Hle.
  apply Qle_trans with (round53 t); [lra | by apply round53_le].
Qed.

Lemma round53_le_float (t x : Q) :
  is_float t -> (x <= t)%Q -> (round53 x <= t)%Q.
Proof.
  unfold is_float. intros Ht Hle.
  apply Qle_trans with (round53 t); [by apply round53_le | lra].
Qed.

Lemma rne_proper (x y : Q) : (x == y)%Q -> rne x = rne y.
Proof.
  intros Hxy. apply Z.le_antisymm; apply rne_le; lra.
Qed.

Lemma round_pos_proper (x y : Q) :
  0 < Qnum x -> (x == y)%Q -> (round_pos x == round_pos y)%Q.
Proof.
  intros Hx Hxy.
  assert (0 < Qnum y) as Hy.
  { apply Qnum_pos. apply Qnum_pos in Hx. lra. }
  apply Qle_antisym; apply round_pos_le; try done; lra.
Qed.

Lemma float_exponent_unique (q : Q) (e : Z) :
  0 < Qnum q ->
  (2 ^ (e + 52) <= q)%Q -> (q < 2 ^ (e + 53))%Q ->
  float_exponent q = e.
Proof.
  intros Hq Hlo Hhi. destruct (float_exponent_spec q Hq) as [Hlo' Hhi'].
  assert (e + 52 < float_exponent q + 53).
  { apply (Qpower_lt_compat_l_inv 2); [lra | reflexivity]. }
  assert (float_exponent q + 52 < e + 53).
  { apply (Qpower_lt_compat_l_inv 2); [lra | reflexivity]. }
  lia.
Qed.

Lemma round_pos_canonical (m e : Z) :
  2 ^ 52 <= m <= 2 ^ 53 ->
  (round_pos (inject_Z m * 2 ^ e) == inject_Z m * 2 ^ e)%Q.
Proof.
  intros [Hm1 Hm2]. set (r := (inject_Z m * 2 ^ e)%Q).
  pose proof (pow2_pos e) as He. pose proof (pow2_cancel e) as Hc.
  pose proof (pow2_pos (- e)) as He'.
  assert (inject_Z (2 ^ 52) <= inject_Z m)%Q as Hq1 by by rewrite <- Zle_Qle.
  assert (inject_Z m <= inject_Z (2 ^ 53))%Q as Hq2 by by rewrite <- Zle_Qle.
  rewrite pow2_inject_Z in Hq1, Hq2 by lia.
  assert (0 < r)%Q as Hpos.
  { apply Qmult_lt_0_compat; [|done]. pose proof (pow2_pos 52). lra. }
  assert (0 < Qnum r) as Hr by by apply Qnum_pos.
  destruct (Z.eq_dec m (2 ^ 53)) as [Heq|Hne].
  - assert (r == 2 ^ (e + 53))%Q as Hrv.
    { unfold r. rewrite Heq, pow2_inject_Z, pow2_add by lia. ring. }
    assert (float_exponent r = e + 1) as Hexp.
    { apply float_exponent_unique; [done|..]; rewrite Hrv.
      - replace (e + 1 + 52) with (e + 53) by lia. lra.
      - apply Qpower_lt_compat_l; [lia | reflexivity]. }
    unfold round_pos. rewrite Hexp.
    rewrite (rne_proper _ (inject_Z (2 ^ 52))).
    + rewrite rne_inject_Z. rewrite Hrv. rewrite pow2_inject_Z by lia.
      rewrite <- pow2_add.
      by replace (52 + (e + 1)) with (e + 53) by lia.
    + rewrite Hrv, <- pow2_add, pow2_inject_Z by lia.
      by replace (e + 53 + - (e + 1)) with 52 by lia.
  - assert (inject_Z m < 2 ^ 53)%Q as Hlt.
    { rewrite <- pow2_inject_Z by lia. rewrite <- Zlt_Qlt. lia. }
    assert (float_exponent r = e) as Hexp.
    { apply float_exponent_unique; [done|..]; unfold r;
        rewrite pow2_add, (Qmult_comm (2 ^ e)).
      - apply Qmult_le_compat_r; lra.
      - apply Qmult_lt_compat_r; lra. }
    unfold round_pos. rewrite Hexp.
    rewrite (rne_proper _ (inject_Z m)); [by rewrite rne_inject_Z|].
    unfold r. rewrite <- Qmult_assoc, (Qmult_comm (2 ^ e)), Hc. ring.
Qed.

Lemma round_pos_idem (q : Q) :
  0 < Qnum q -> (round_pos (round_pos q) == round_pos q)%Q.
Proof.
  intros Hq. apply round_pos_canonical. by apply mantissa_bounds.
Qed.

Lemma round53_idem (q : Q) : (round53 (round53 q) == round53 q)%Q.
Proof.
  unfold round53 at 2. destruct q as [[|n|n] d]; cbn [Qnum].
  - reflexivity.
  - pose proof (round_pos_pos (Z.pos n # d) ltac:(done)) as Hpos.
    apply Qnum_pos in Hpos. unfold round53.
    destruct (Qnum (round_pos (Z.pos n # d))) eqn:Hn; try lia.
    by apply round_pos_idem.
  - pose proof (round_pos_pos (- (Z.neg n # d)) ltac:(done)) as Hpos.
    pose proof Hpos as Hnum. apply Qnum_pos in Hnum. unfold round53.
    destruct (Qnum (- round_pos (- (Z.neg n # d)))) eqn:Hn;
      try (by exfalso; revert Hn Hnum; unfold Qopp; cbn [Qnum]; lia).
    apply Qopp_comp.
    rewrite (round_pos_proper (- - round_pos (- (Z.neg n # d)))
               (round_pos (- (Z.neg n # d)))).
    + by apply round_pos_idem.
    + apply Qnum_pos. rewrite Qopp_involutive. done.
    + apply Qopp_involutive.
Qed.

Lemma round_pos_int (n : Z) :
  0 < n < 2 ^ 53 -> (round_pos (inject_Z n) == inject_Z n)%Q.
Proof.
  intros [Hn Hlt]. destruct (Z.log2_spec n Hn) as [Hlo Hhi].
  pose proof (Z.log2_nonneg n) as Hnn.
  assert (Z.log2 n < 53) as Hl by (apply Z.log2_lt_pow2; lia).
  set (l := Z.log2 n) in *.
  assert (inject_Z n == inject_Z (n * 2 ^ (52 - l)) * 2 ^ (l - 52))%Q as Heq.
  { rewrite inject_Z_mult, pow2_inject_Z, <- Qmult_assoc, <- pow2_add by lia.
    replace (52 - l + (l - 52)) with 0 by lia. change (2 ^ 0)%Q with 1%Q.
    ring. }
  assert (0 < Qnum (inject_Z n)) as Hpos by done.
  rewrite (round_pos_proper _ _ Hpos Heq).
  rewrite round_pos_canonical; [by rewrite <- Heq|].
  replace (2 ^ 52) with (2 ^ l * 2 ^ (52 - l))
    by (rewrite <- Z.pow_add_r by lia; f_equal; lia).
  replace (2 ^ 53) with (2 ^ Z.succ l * 2 ^ (52 - l))
    by (rewrite <- Z.pow_add_r by lia; f_equal; lia).
  assert (0 < 2 ^ (52 - l)) by (apply Z.pow_pos_nonneg; lia). nia.
Qed.

Lemma is_float_int (n : Z) : Z.abs n < 2 ^ 53 -> is_float (inject_Z n).
Proof.
  intros Hn. unfold is_float, round53. destruct n as [|p|p]; cbn [Qnum inject_Z].
  - reflexivity.
  - apply (round_pos_int (Z.pos p)). lia.
  - change (- (Z.neg p # 1))%Q with (inject_Z (Z.pos p)).
    rewrite (round_pos_int (Z.pos p)) by lia. reflexivity.
Qed.

Lemma round53_proper (x y : Q) : (x == y)%Q -> (round53 x == round53 y)%Q.
Proof. intros Hxy. apply Qle_antisym; apply round53_le; lra. Qed.

Lemma float_add_floats (x y : Q) :
  is_float x -> is_float y -> is_float (x + y)%Q ->
  (float_add x y == x + y)%Q.
Proof.
  unfold is_float, float_add. intros Hx Hy Hxy.
  rewrite (round53_proper (round53 x + round53 y) (x + y)); [done|].
  by rewrite Hx, Hy.
Qed.

(** ** SVServerState *)

Lemma is_blacklisted_iff (s : SVServerState.t) (now : Q) :
  SVServerState.is_blacklisted s now = true
  <-> (float_sub now (inject_Z ONE_DAY)
       < round53 (SVServerState.last_blacklisted s))%Q.
Proof. unfold SVServerState.is_blacklisted, Qgtb. apply Qltb_lt. Qed.

(** C3, at the boundary: a server that is not blacklisted and whose
    [last_try + retry_delay] equals [now] cannot be retried yet. *)
Lemma can_retry_boundary_counterexample :
  let s :=
    SVServerState.set_retry_delay
      (SVServerState.set_last_try SVServerState.__init__ 99990%Q) 10 in
  SVServerState.is_blacklisted s 100000%Q = false
  /\ (SVServerState.last_try s + inject_Z (SVServerState.retry_delay s)
      <= 100000)%Q
  /\ SVServerState.can_retry s 100000%Q = false.
Proof. split; [|split]; [vm_compute; reflexivity | cbv; discriminate |
                         vm_compute; reflexivity]. Qed.

(** C3, as the code has it: [can_retry(now)] holds exactly when the server
    is not blacklisted at [now] and the float [last_try + retry_delay] is
    strictly before [now]; the server is blacklisted at [now] exactly when
    [last_blacklisted] is above the float [now - 86400].  Where the exact
    sum of the floats [last_try] and [retry_delay] is a float, as it is
    for the clock values of these years, the sum compared is the exact
    one. *)
Theorem can_retry_iff_strictly_before (s : SVServerState.t) (now : Q) :
  (SVServerState.can_retry s now = true
   <-> SVServerState.is_blacklisted s now = false
       /\ (float_add (SVServerState.last_try s)
             (inject_Z (SVServerState.retry_delay s))
           < round53 now)%Q)
  /\ (SVServerState.is_blacklisted s now = true
      <-> (float_sub now (inject_Z 86400)
           < round53 (SVServerState.last_blacklisted s))%Q)
  /\ (is_float now ->
      is_float (SVServerState.last_try s) ->
      is_float (inject_Z (SVServerState.retry_delay s)) ->
      is_float (SVServerState.last_try s
                + inject_Z (SVServerState.retry_delay s))%Q ->
      (SVServerState.can_retry s now = true
       <-> SVServerState.is_blacklisted s now = false
           /\ (SVServerState.last_try s
               + inject_Z (SVServerState.retry_delay s)
               < now)%Q)).
Proof.
  assert (SVServerState.can_retry s now = true
          <-> SVServerState.is_blacklisted s now = false
              /\ (float_add (SVServerState.last_try s)
                    (inject_Z (SVServerState.retry_delay s))
                  < round53 now)%Q) as Hiff.
  { unfold SVServerState.can_retry.
    rewrite andb_true_iff, negb_true_iff, Qltb_lt. reflexivity. }
  split; [exact Hiff|]. split; [apply is_blacklisted_iff|].
  intros Hnow Htry Hdelay Hsum. rewrite Hiff.
  pose proof (float_add_floats _ _ Htry Hdelay Hsum) as Hadd.
  unfold is_float in Hnow.
  split; intros [Hb Hlt]; (split; [done|lra]).
Qed.

(** The sum that [can_retry] compares is rounded.  With the floats
    [0.001] and [21.001], and with the clock values
    [2147483326.9092205] and [2147483677.9092207] of January 2038, the
    exact [last_try + retry_delay] is below [now], the float sum equals
    [now], and the server cannot be retried. *)
Lemma can_retry_rounds_the_sum :
  let state last_try retry_delay :=
    SVServerState.set_retry_delay
      (SVServerState.set_last_try
         (SVServerState.set_last_blacklisted SVServerState.__init__
            (- 100000))
         last_try)
      retry_delay in
  let a := round53 (1 # 1000) in
  let now_a := round53 (21001 # 1000) in
  let b := round53 (21474833269092205 # 10000000) in
  let now_b := round53 (21474836779092207 # 10000000) in
  ((a + 21 < now_a)%Q
   /\ SVServerState.is_blacklisted (state a 21) now_a = false
   /\ SVServerState.can_retry (state a 21) now_a = false)
  /\ ((b + 351 < now_b)%Q
      /\ SVServerState.is_blacklisted (state b 351) now_b = false
      /\ SVServerState.can_retry (state b 351) now_b = false).
Proof. cbv zeta. repeat split; vm_compute; reflexivity. Qed.

(** C9, with a timestamp that is not a whole number of seconds: the round
    trip turns [last_try = 1.5] into [1]. *)
Lemma to_json_round_trip_counterexample :
  let s := SVServerState.set_last_try SVServerState.__init__ (3 # 2) in
  let s' := SVServerState.from_json (SVServerState.to_json s) in
  SVServerState.last_try s' = 1%Q
  /\ ~ (SVServerState.last_try s' == SVServerState.last_try s)%Q.
Proof. split; [reflexivity | cbv; discriminate]. Qed.

(** C9, as the code has it: [from_json] after [to_json] yields the three
    timestamps truncated to integers ([int(...)]), so each timestamp that
    is a whole number is preserved; the other attributes are those of a
    fresh state. *)
Theorem to_json_from_json_truncates (s : SVServerState.t) :
  let s' := SVServerState.from_json (SVServerState.to_json s) in
  (SVServerState.last_try s' = inject_Z (int (SVServerState.last_try s))
   /\ SVServerState.last_good s'
      = inject_Z (int (SVServerState.last_good s))
   /\ SVServerState.last_blacklisted s'
      = inject_Z (int (SVServerState.last_blacklisted s)))
  /\ ((forall z, (SVServerState.last_try s == inject_Z z)%Q ->
        (SVServerState.last_try s' == SVServerState.last_try s)%Q)
      /\ (forall z, (SVServerState.last_good s == inject_Z z)%Q ->
        (SVServerState.last_good s' == SVServerState.last_good s)%Q)
      /\ (forall z, (SVServerState.last_blacklisted s == inject_Z z)%Q ->
        (SVServerState.last_blacklisted s'
         == SVServerState.last_blacklisted s)%Q))
  /\ SVServerState.retry_delay s' = 0
  /\ SVServerState.banner s' = SVServerState.Str ""
  /\ SVServerState.donation_address s' = SVServerState.Str "".
Proof.
  cbv zeta.
  repeat split; try reflexivity; intros z Hz;
    exact (int_of_integer _ z Hz).
Qed.

(** ** SVServer: the retry delay *)

Lemma backoff_clamp (retry_delay : Z) :
  SVServer.backoff retry_delay = SVServer.clamp (2 * retry_delay + 1) 10 600.
Proof.
  unfold SVServer.backoff, SVServer.clamp.
  destruct (Z.ltb_spec (2 * retry_delay + 1) 10);
    [lia | destruct (Z.ltb_spec 600 (2 * retry_delay + 1)); lia].
Qed.

Lemma connect_failed_retry_delay (st : SVServerState.t) (now now_end : Q)
    (o : SVServer.outcome) :
  SVServer.failed o = true ->
  SVServerState.retry_delay (SVServer.connect st now o now_end)
  = SVServer.backoff (SVServerState.retry_delay st).
Proof.
  destruct o as [|[] ended]; simpl; [done | done |].
  intros _. destruct ended as [[error| |]|]; simpl; try done.
  unfold SVServer.disconnect.
  by destruct (DisconnectSessionError.blacklist error).
Qed.

Lemma attempts_snoc (st : SVServerState.t) (os : list (Q * SVServer.outcome * Q))
    (now now_end : Q) (o : SVServer.outcome) :
  SVServer.attempts st (os ++ [(now, o, now_end)])
  = SVServer.connect (SVServer.attempts st os) now o now_end.
Proof. unfold SVServer.attempts. by rewrite fold_left_app. Qed.

Lemma r_saturates (k : nat) : (7 <= k)%nat -> SVServer.r k = 600.
Proof.
  induction 1 as [|k _ IH]; [reflexivity|].
  cbn [SVServer.r]. rewrite IH. reflexivity.
Qed.

(** C7.  From [retry_delay = 0], after [k] consecutive attempts that fail
    (the connector raises, or [run] ends before the session is
    established), [retry_delay] is the [k]-th term of
    [r_{k+1} = clamp(2 r_k + 1, 10, 600)], [r_0 = 0]: the terms 1 to 8 are
    10, 21, 43, 87, 175, 351, 600, 600, and every term from the seventh on
    is 600. *)
Theorem retry_delay_follows_recurrence
    (st : SVServerState.t) (os : list (Q * SVServer.outcome * Q)) :
  SVServerState.retry_delay st = 0 ->
  Forall (fun a => SVServer.failed a.1.2 = true) os ->
  SVServerState.retry_delay (SVServer.attempts st os)
  = SVServer.r (length os)
  /\ SVServer.r <$> [1; 2; 3; 4; 5; 6; 7; 8]%nat
     = [10; 21; 43; 87; 175; 351; 600; 600]
  /\ (forall k, (7 <= k)%nat -> SVServer.r k = 600).
Proof.
  intros Hst Hos. split; [|split; [reflexivity | exact r_saturates]].
  induction os as [|[[now o] now_end] os IH] using rev_ind; [done|].
  apply Forall_app in Hos as [Hos Ho].
  apply Forall_inv in Ho. simpl in Ho.
  rewrite attempts_snoc.
  rewrite connect_failed_retry_delay by exact Ho.
  rewrite IH by exact Hos.
  rewrite length_app, Nat.add_1_r. cbn [SVServer.r length].
  apply backoff_clamp.
Qed.

(** Three failed attempts on a fresh server state: the delay is [r 3]. *)
Lemma retry_delay_follows_recurrence_witness :
  SVServerState.retry_delay
    (SVServer.attempts SVServerState.__init__
       [ (100%Q, SVServer.ConnectorRaised, 100%Q);
         (120%Q, SVServer.SessionRan false (Some SVServer.Transient), 121%Q);
         (150%Q, SVServer.ConnectorRaised, 150%Q) ])
  = SVServer.r 3
  /\ SVServer.r <$> [1; 2; 3; 4; 5; 6; 7; 8]%nat
     = [10; 21; 43; 87; 175; 351; 600; 600]
  /\ (forall k, (7 <= k)%nat -> SVServer.r k = 600).
Proof.
  apply (retry_delay_follows_recurrence SVServerState.__init__
           [ (100%Q, SVServer.ConnectorRaised, 100%Q);
             (120%Q, SVServer.SessionRan false (Some SVServer.Transient),
              121%Q);
             (150%Q, SVServer.ConnectorRaised, 150%Q) ]).
  - reflexivity.
  - repeat constructor.
Defined.

(** ** SVServer: the registry *)

Lemma prefix_empty_r (p : string) : String.prefix p "" = true -> p = "".
Proof. by destruct p. Qed.

Lemma prefix_cons_r (p : string) (b : ascii) (s : string) :
  String.prefix p (String b s) = true ->
  p = "" \/ exists p', p = String b p' /\ String.prefix p' s = true.
Proof.
  destruct p as [|a p]; [by left|]. simpl.
  destruct (ascii_dec a b) as [->|]; [|done]. right; eauto.
Qed.

Lemma str_in_st (protocol : string) :
  str_in protocol "st" = true
  <-> protocol = "" \/ protocol = "s" \/ protocol = "t" \/ protocol = "st".
Proof.
  split.
  - cbn [str_in]. rewrite !orb_true_iff.
    intros [H|[H|[H|H]]]; [| | |done].
    + apply prefix_cons_r in H as [Hp | (p & Hp & H)]; subst; [by left|].
      apply prefix_cons_r in H as [Hp | (p' & Hp & H)]; subst; [by right; left|].
      apply prefix_empty_r in H. subst. by right; right; right.
    + apply prefix_cons_r in H as [Hp | (p & Hp & H)]; subst; [by left|].
      apply prefix_empty_r in H. subst. by right; right; left.
    + apply prefix_empty_r in H. subst. by left.
  - intros [-> | [-> | [-> | ->]]]; reflexivity.
Qed.

(** A protocol that is no substring of ['st'] is refused: [unique] raises
    [ValueError] and hands back no registry, whatever was interned
    before under other keys. *)
Lemma unique_rejects_unknown_protocol
    (int_of_str : string -> option Z) (all_servers : SVServer.registry)
    (host : string) (port : Z) (protocol : string) :
  str_in protocol "st" = false ->
  host <> "" ->
  all_servers !! (host, port, protocol) = None ->
  SVServer.unique int_of_str all_servers host (SVServer.PortInt port) protocol
  = raise (ValueError ("unknown protocol: " +:+ protocol)).
Proof.
  intros Hp Hh Hnone. unfold SVServer.unique, SVServer.__init__.
  rewrite Hnone. destruct (String.eqb_spec host ""); [done|].
  by rewrite Hp.
Qed.

(** C8.  The test [protocol not in 'st'] is a substring test, so the empty
    protocol and the protocol ['st'] pass it: [unique] creates and interns
    a server for each instead of raising [ValueError]. *)
Theorem unique_interns_empty_and_st_protocol
    (int_of_str : string -> option Z) :
  SVServer.unique int_of_str ∅ "localhost" (SVServer.PortInt 50002) ""
  = ret (<[("localhost", 50002, "") :=
            SVServer.mk "localhost" 50002 "" SVServerState.__init__]> ∅,
         SVServer.mk "localhost" 50002 "" SVServerState.__init__)
  /\ SVServer.unique int_of_str ∅ "localhost" (SVServer.PortInt 50002) "st"
     = ret (<[("localhost", 50002, "st") :=
               SVServer.mk "localhost" 50002 "st" SVServerState.__init__]> ∅,
            SVServer.mk "localhost" 50002 "st" SVServerState.__init__).
Proof. split; reflexivity. Qed.

(** ** SVSession: header chunks *)

Section RequestChunkFacts.

Variable chain : Type.
Variable checkpoint_height : Z.
Variable _check_header_proof :
  string -> list bytes -> bytes -> number -> result unit.
Variable _connect_chunk : Z -> bytes -> result chain.

(** C2, as the code has it: the request is
    [blockchain.block.headers(height, count, cp_height)] where [cp_height]
    is the checkpoint height when [height + count] is below the checkpoint
    height, that is when the range ends at least two below it, and [0]
    otherwise. *)
Theorem request_chunk_cp_height (height count : Z)
    (server_reply : result SVSession.headers_reply) :
  exists cp_height : Z,
    (SVSession._request_chunk chain checkpoint_height _check_header_proof
       _connect_chunk height count server_reply).1
    = Request "blockchain.block.headers"
              [AInt height; AInt count; AInt cp_height]
    /\ ((height + count - 1 <= checkpoint_height - 2
         /\ cp_height = checkpoint_height)
        \/ (checkpoint_height - 2 < height + count - 1 /\ cp_height = 0)).
Proof.
  exists (SVSession.request_cp_height checkpoint_height height count).
  split; [reflexivity|]. unfold SVSession.request_cp_height.
  destruct (Z.geb_spec (height + count) checkpoint_height); [right|left]; lia.
Qed.

End RequestChunkFacts.

(** C2, for a range that ends just below the checkpoint: with the
    checkpoint at 100, the request for 10 headers from height 90 covers
    heights 90 to 99, all at or before the checkpoint, and is sent with
    [cp_height = 0]. *)
Lemma request_chunk_cp_height_counterexample :
  90 + 10 - 1 <= 100
  /\ params
       (SVSession._request_chunk unit 100 (fun _ _ _ _ => ret tt)
          (fun _ _ => ret tt) 90 10 (raise TaskTimeout)).1
     = [AInt 90; AInt 10; AInt 0].
Proof. split; [lia | reflexivity]. Qed.

(** ** Network: the lagging check *)

Lemma fold_max_ge (hs : list Z) (h : Z) :
  h <= fold_left Z.max hs h /\ forall x, x ∈ hs -> x <= fold_left Z.max hs h.
Proof.
  revert h. induction hs as [|y hs IH]; intros h; simpl.
  - split; [lia | intros x Hx; by apply elem_of_nil in Hx].
  - destruct (IH (Z.max h y)) as [H1 H2]. split; [lia|].
    intros x [->|Hx]%elem_of_cons; [lia | by apply H2].
Qed.

Lemma max_height_ge (sessions : list SVSession.t) (session : SVSession.t) :
  session ∈ sessions ->
  SVSession.tip_height session <= Network.max_height sessions.
Proof.
  intros Hin. unfold Network.max_height.
  assert (SVSession.tip_height session ∈ SVSession.tip_height <$> sessions)
    as Hh by (apply list_elem_of_fmap; eauto).
  destruct (SVSession.tip_height <$> sessions) as [|h hs];
    [by apply elem_of_nil in Hh|].
  destruct (fold_max_ge hs h) as [H1 H2].
  apply elem_of_cons in Hh as [->|Hh]; [done | by apply H2].
Qed.

Lemma refresh_idempotent (now : Q) (server : option SVServer.t) :
  Network.refresh now <$> (Network.refresh now <$> server)
  = Network.refresh now <$> server.
Proof. by destruct server. Qed.

(** The store after the marking loop, key by key. *)
Lemma mark_good_lookup (sessions : list SVSession.t)
    (all_servers : SVServer.registry) (max_height : Z) (now : Q)
    (key : string * Z * string) :
  Network.mark_good all_servers sessions max_height now !! key
  = if existsb
         (fun session =>
            (SVSession.tip_height session >? max_height - 2)
            && bool_decide (SVSession.server session = key))
         sessions
    then Network.refresh now <$> all_servers !! key
    else all_servers !! key.
Proof.
  unfold Network.mark_good. revert all_servers.
  induction sessions as [|session sessions IH]; intros all_servers; [done|].
  cbn [fold_left existsb]. rewrite IH.
  destruct (SVSession.tip_height session >? max_height - 2); simpl; [|done].
  rewrite lookup_alter.
  destruct (decide (SVSession.server session = key)) as [->|Hne].
  - rewrite bool_decide_eq_true_2 by done. simpl.
    rewrite refresh_idempotent. by destruct (existsb _ _).
  - by rewrite bool_decide_eq_false_2 by done.
Qed.

(** C5, as the code has it: with [max_height] the greatest tip height of
    the sessions, the server of every session less than 2 blocks behind
    ([max_height - tip.height < 2]) gets [last_good = now]; a server all
    of whose sessions are 2 or more blocks behind keeps its state. *)
Theorem lagging_check_refreshes_within_one
    (self : Network.t) (all_servers : SVServer.registry) (now : Q) :
  let max_height := Network.max_height (Network.sessions self) in
  let servers' :=
    (Network._maybe_switch_main_server self all_servers now).1 in
  (forall session, session ∈ Network.sessions self ->
     SVSession.tip_height session <= max_height)
  /\ (forall session server,
        session ∈ Network.sessions self ->
        max_height - SVSession.tip_height session < 2 ->
        all_servers !! SVSession.server session = Some server ->
        servers' !! SVSession.server session
          = Some (Network.refresh now server)
        /\ SVServerState.last_good
             (SVServer.state (Network.refresh now server)) = now)
  /\ (forall key,
        (forall session, session ∈ Network.sessions self ->
           SVSession.server session = key ->
           2 <= max_height - SVSession.tip_height session) ->
        servers' !! key = all_servers !! key).
Proof.
  cbv zeta. split; [intros; by apply max_height_ge|].
  unfold Network._maybe_switch_main_server. cbn [fst].
  split.
  - intros session server Hin Hh Hs. split; [|done].
    rewrite mark_good_lookup, Hs.
    replace (existsb _ _) with true; [done|].
    symmetry. apply existsb_exists. exists session.
    split; [by apply list_elem_of_In|].
    rewrite bool_decide_eq_true_2 by done.
    rewrite andb_true_r. apply Z.gtb_lt. lia.
  - intros key Hkey. rewrite mark_good_lookup.
    replace (existsb _ _) with false; [done|].
    symmetry. apply not_true_iff_false. intros Hex.
    apply existsb_exists in Hex as (session & Hin & Ht).
    apply andb_true_iff in Ht as [Ht Hk].
    apply bool_decide_eq_true_1 in Hk. apply Z.gtb_lt in Ht.
    apply list_elem_of_In in Hin. specialize (Hkey session Hin Hk). lia.
Qed.

(** C5, for a session exactly 2 blocks behind: with tips at heights 100
    and 98 the second session is within 2 of the maximum, and its server
    keeps [last_good = 0] when the check runs at time 1000. *)
Lemma lagging_check_two_behind_counterexample :
  let a := ("a.example", 50002, "s") in
  let b := ("b.example", 50002, "s") in
  let all_servers : SVServer.registry :=
    <[a := SVServer.mk "a.example" 50002 "s" SVServerState.__init__]>
      (<[b := SVServer.mk "b.example" 50002 "s" SVServerState.__init__]> ∅) in
  let self :=
    Network.mk [SVSession.mk a 100 [1; 4; 2]; SVSession.mk b 98 [1; 4; 2]]
               a true in
  Network.max_height (Network.sessions self) - 98 <= 2
  /\ (SVServerState.last_good ∘ SVServer.state) <$>
       ((Network._maybe_switch_main_server self all_servers 1000%Q).1 !! b)
     = Some 0%Q
  /\ (SVServerState.last_good ∘ SVServer.state) <$>
       ((Network._maybe_switch_main_server self all_servers 1000%Q).1 !! a)
     = Some 1000%Q.
Proof. cbv zeta. split; [vm_compute; discriminate|]. split; reflexivity. Qed.

(** ** SVSession: unsubscribing *)

Lemma exclusive_fold (items : list (nat * list string)) (wallet : nat)
    (subs_set : gset string) (script_hash : string) :
  script_hash ∈
    fold_left
      (fun subs_set '(other_wallet, other_subs) =>
         if decide (other_wallet = wallet) then subs_set
         else subs_set ∖ list_to_set other_subs)
      items subs_set
  <-> script_hash ∈ subs_set
      /\ forall other_wallet other_subs,
           (other_wallet, other_subs) ∈ items ->
           other_wallet ≠ wallet -> script_hash ∉ other_subs.
Proof.
  revert subs_set.
  induction items as [|[w l] items IH]; intros subs_set; simpl.
  - split; [intros H; split; [done|] | by intros [H _]].
    intros ? ? Hin. by apply elem_of_nil in Hin.
  - rewrite IH. split.
    + intros [Hin Hrest]. destruct (decide (w = wallet)) as [->|Hne].
      * split; [done|]. intros w' l' [Heq|Hin']%elem_of_cons Hw'.
        -- by inversion Heq; subst.
        -- by apply (Hrest w' l').
      * apply elem_of_difference in Hin as [Hin Hl].
        rewrite elem_of_list_to_set in Hl.
        split; [done|]. intros w' l' [Heq|Hin']%elem_of_cons Hw'.
        -- by inversion Heq; subst.
        -- by apply (Hrest w' l').
    + intros [Hin Hall]. split.
      * destruct (decide (w = wallet)) as [->|Hne]; [done|].
        apply elem_of_difference. split; [done|].
        rewrite elem_of_list_to_set. apply (Hall w l); [left|done].
      * intros w' l' Hin' Hw'. apply (Hall w' l'); [by right|done].
Qed.

(** [_get_exclusive_set] holds the script hashes of [subs] that no other
    wallet of the table is subscribed to. *)
Lemma get_exclusive_set_spec (subs_by_wallet : gmap nat (list string))
    (wallet : nat) (subs : list string) (script_hash : string) :
  script_hash ∈ SVSession._get_exclusive_set subs_by_wallet wallet subs
  <-> script_hash ∈ subs
      /\ forall other_wallet other_subs,
           other_wallet ≠ wallet ->
           subs_by_wallet !! other_wallet = Some other_subs ->
           script_hash ∉ other_subs.
Proof.
  unfold SVSession._get_exclusive_set.
  rewrite exclusive_fold, elem_of_list_to_set.
  split; intros [Hin Hall]; (split; [done|]).
  - intros w l Hw Hl. apply (Hall w l); [|done].
    by apply elem_of_map_to_list.
  - intros w l Hl Hw. apply (Hall w l); [done|].
    by apply elem_of_map_to_list.
Qed.

Lemma unsubscribe_loop_sent (exclusive_subs : gset string)
    (pairs : list (string * string)) (subs : list string)
    (address_map : gmap string string) (sent : list request)
    (req : request) :
  req ∈ (SVSession.unsubscribe_loop exclusive_subs pairs subs address_map
           sent).1.2 ->
  req ∈ sent
  \/ exists script_hash,
       req = SVSession.unsubscribe_request script_hash
       /\ script_hash ∈ exclusive_subs.
Proof.
  revert subs address_map sent.
  induction pairs as [|[address script_hash] pairs IH];
    intros subs address_map sent; cbn [SVSession.unsubscribe_loop].
  - by left.
  - destruct (bool_decide (script_hash ∈ exclusive_subs)) eqn:Hex; simpl;
      [|by apply IH].
    destruct (bool_decide (script_hash ∈ subs)) eqn:Hsub; simpl;
      [|by apply IH].
    destruct (address_map !! script_hash); simpl; [|by left].
    intros H. destruct (IH _ _ _ H) as [Hs|Hr]; [|by right].
    apply elem_of_app in Hs as [Hs|Hs]; [by left|].
    apply list_elem_of_singleton in Hs. right. exists script_hash.
    apply bool_decide_eq_true_1 in Hex. done.
Qed.

(** Both paths only unsubscribe script hashes held by no other wallet. *)
Lemma unsubscribe_from_pairs_exclusive (self : SVSession.t)
    (tb : SVSession.tables) (wallet : nat) (pairs : list (string * string))
    (req : request) :
  req ∈ (SVSession.unsubscribe_from_pairs self tb wallet pairs).1.2 ->
  exists script_hash subs,
    req = SVSession.unsubscribe_request script_hash
    /\ SVSession._subs_by_wallet tb !! wallet = Some subs
    /\ script_hash ∈ subs
    /\ forall other_wallet other_subs,
         other_wallet ≠ wallet ->
         SVSession._subs_by_wallet tb !! other_wallet = Some other_subs ->
         script_hash ∉ other_subs.
Proof.
  unfold SVSession.unsubscribe_from_pairs.
  destruct (SVSession._subs_by_wallet tb !! wallet) as [subs|] eqn:Hw;
    [|intros H; by apply elem_of_nil in H].
  pose proof (unsubscribe_loop_sent
    (SVSession._get_exclusive_set (SVSession._subs_by_wallet tb) wallet subs)
    pairs subs (SVSession._address_map tb) [] req) as Hloop.
  destruct (SVSession.unsubscribe_loop _ pairs subs _ [])
    as [[[subs' address_map'] sent] res].
  simpl in *. intros H.
  destruct (Hloop H) as [Hnil|(sh & -> & Hex)];
    [by apply elem_of_nil in Hnil|].
  apply get_exclusive_set_spec in Hex as [Hin Hall].
  exists sh, subs. by repeat split.
Qed.

(** [unsubscribe_wallet] sends a request only on a session whose protocol
    is at least (1, 4, 2), and only for a script hash of the wallet that
    no other wallet holds. *)
Lemma unsubscribe_wallet_exclusive (tb : SVSession.tables) (wallet : nat)
    (session : option SVSession.t) (req : request) :
  req ∈ (SVSession.unsubscribe_wallet tb wallet session).2 ->
  exists script_hash subs self,
    req = SVSession.unsubscribe_request script_hash
    /\ session = Some self
    /\ tuple_ltb (SVSession.ptuple self) [1; 4; 2] = false
    /\ SVSession._subs_by_wallet tb !! wallet = Some subs
    /\ script_hash ∈ subs
    /\ forall other_wallet other_subs,
         other_wallet ≠ wallet ->
         SVSession._subs_by_wallet tb !! other_wallet = Some other_subs ->
         script_hash ∉ other_subs.
Proof.
  unfold SVSession.unsubscribe_wallet.
  destruct (SVSession._subs_by_wallet tb !! wallet) as [subs|] eqn:Hw;
    [|intros H; by apply elem_of_nil in H].
  destruct session as [self|]; [|intros H; by apply elem_of_nil in H].
  cbn [SVSession._subs_by_wallet].
  destruct (bool_decide _); [intros H; by apply elem_of_nil in H|].
  destruct (tuple_ltb _ _) eqn:Hp; [intros H; by apply elem_of_nil in H|].
  cbn [snd]. intros (sh & -> & Hin)%list_elem_of_fmap.
  apply elem_of_elements, get_exclusive_set_spec in Hin as [Hin Hall].
  exists sh, subs, self. repeat split; try done.
  intros w l Hne Hl. apply (Hall w l Hne). by rewrite lookup_delete_ne.
Qed.

(** Scenario S6 on a session with [ptuple = (1, 4, 2)]: wallets 1 and 2
    both hold S; unsubscribing wallet 1 sends nothing, unsubscribing wallet
    2 afterwards sends the unsubscribe for S. *)
Lemma unsubscribe_wallet_shared_then_exclusive :
  let session := SVSession.mk ("a.example", 50002, "s") 100 [1; 4; 2] in
  let tb :=
    SVSession.Tables (<[1%nat := ["S"]]> (<[2%nat := ["S"]]> ∅))
                     (<["S" := "A"]> ∅) in
  (SVSession.unsubscribe_wallet tb 1 (Some session)).2 = []
  /\ (SVSession.unsubscribe_wallet
        (SVSession.unsubscribe_wallet tb 1 (Some session)).1 2
        (Some session)).2
     = [SVSession.unsubscribe_request "S"].
Proof. split; reflexivity. Qed.

(** C6.  [unsubscribe_from_pairs] never looks at the negotiated protocol:
    on any session, so also on one with [ptuple = (1, 4, 1) < (1, 4, 2)],
    it sends the unsubscribe for a script hash held by the wallet alone,
    while [unsubscribe_wallet] on that session sends nothing. *)
Theorem unsubscribe_from_pairs_ignores_ptuple (self : SVSession.t) :
  let tb :=
    SVSession.Tables (<[1%nat := ["S"]]> ∅) (<["S" := "A"]> ∅) in
  (SVSession.unsubscribe_from_pairs self tb 1 [("A", "S")]).1.2
  = [SVSession.unsubscribe_request "S"]
  /\ tuple_ltb [1; 4; 1] [1; 4; 2] = true
  /\ (SVSession.unsubscribe_wallet tb 1
        (Some (SVSession.mk ("a.example", 50002, "s") 100 [1; 4; 1]))).2
     = [].
Proof. repeat split; reflexivity. Qed.

(** ** SVSession: subscribing *)

Lemma size_list_to_set_le (l : list string) :
  (size (list_to_set l : gset string) <= length l)%nat.
Proof.
  induction l as [|x l IH]; [done|].
  rewrite list_to_set_cons. cbn [length].
  destruct (decide (x ∈ l)) as [Hin|Hnin].
  - transitivity (size (list_to_set l : gset string)); [|lia].
    apply subseteq_size. set_solver.
  - rewrite size_union by set_solver. rewrite size_singleton. lia.
Qed.

(** The assertion at the end of [subscribe_to_pairs] tests exactly that
    the list has no duplicates. *)
Lemma no_double_subscription_NoDup (subs : list string) :
  SVSession.no_double_subscription subs = true <-> NoDup subs.
Proof.
  unfold SVSession.no_double_subscription. rewrite bool_decide_eq_true.
  split; [|apply size_list_to_set].
  induction subs as [|x l IH]; [constructor|].
  rewrite list_to_set_cons. cbn [length]. intros Hsize.
  destruct (decide (x ∈ l)) as [Hin|Hnin].
  - pose proof (size_list_to_set_le l) as Hle.
    assert (size ({[x]} ∪ list_to_set l : gset string)
            <= size (list_to_set l : gset string))%nat as Hsub
      by (apply subseteq_size; set_solver).
    lia.
  - rewrite size_union, size_singleton in Hsize by set_solver.
    constructor; [done|]. apply IH. lia.
Qed.

Lemma subscribe_fold_subs (pairs : list (string * string))
    (acc : list string * gmap string string * list request) :
  (fold_left SVSession.subscribe_step pairs acc).1.1 = acc.1.1 ++ pairs.*2.
Proof.
  revert acc. induction pairs as [|[address script_hash] pairs IH];
    intros [[subs address_map] sent]; simpl.
  - by rewrite app_nil_r.
  - rewrite IH. simpl. by rewrite <- app_assoc.
Qed.

(** What [subscribe_to_pairs] leaves in [_subs_by_wallet[wallet]] and when
    its assertion holds. *)
Lemma subscribe_to_pairs_subs (tb : SVSession.tables) (wallet : nat)
    (pairs : list (string * string)) :
  let subs' :=
    default [] (SVSession._subs_by_wallet tb !! wallet) ++ pairs.*2 in
  SVSession._subs_by_wallet
    (SVSession.subscribe_to_pairs tb wallet pairs).1.1 !! wallet
  = Some subs'
  /\ (SVSession.subscribe_to_pairs tb wallet pairs).2
     = if SVSession.no_double_subscription subs' then ret tt
       else raise AssertionError.
Proof.
  cbv zeta. unfold SVSession.subscribe_to_pairs.
  set (subs_by_wallet :=
         match SVSession._subs_by_wallet tb !! wallet with
         | Some _ => SVSession._subs_by_wallet tb
         | None => <[wallet := []]> (SVSession._subs_by_wallet tb)
         end).
  assert (default [] (subs_by_wallet !! wallet)
          = default [] (SVSession._subs_by_wallet tb !! wallet)) as ->.
  { subst subs_by_wallet.
    destruct (SVSession._subs_by_wallet tb !! wallet) eqn:Hw;
      [by rewrite Hw | by rewrite lookup_insert_eq]. }
  pose proof (subscribe_fold_subs pairs
    (default [] (SVSession._subs_by_wallet tb !! wallet),
     SVSession._address_map tb, [])) as Hfold.
  destruct (fold_left SVSession.subscribe_step pairs _)
    as [[subs address_map] sent].
  simpl in Hfold. subst subs. simpl.
  by rewrite lookup_insert_eq.
Qed.

(** C10, from a list that already holds a duplicate: a first call with the
    same script hash twice fails its assertion and leaves [a, a] behind;
    the next call subscribes the single new script hash [b], and its
    assertion fails too. *)
Lemma subscribe_to_pairs_counterexample :
  let tb :=
    (SVSession.subscribe_to_pairs (SVSession.Tables ∅ ∅) 1
       [("A", "a"); ("A", "a")]).1.1 in
  SVSession._subs_by_wallet tb !! 1%nat = Some ["a"; "a"]
  /\ NoDup [("B", "b")].*2
  /\ (forall script_hash,
        script_hash ∈ [("B", "b")].*2 -> script_hash ∉ ["a"; "a"])
  /\ (SVSession.subscribe_to_pairs tb 1 [("B", "b")]).2
     = raise AssertionError
  /\ SVSession._subs_by_wallet
       (SVSession.subscribe_to_pairs tb 1 [("B", "b")]).1.1 !! 1%nat
     = Some ["a"; "a"; "b"].
Proof.
  cbv zeta. split; [reflexivity|].
  split; [repeat constructor; set_solver|].
  split; [set_solver|].
  split; reflexivity.
Qed.

(** C10, as the code has it: when [_subs_by_wallet[wallet]] holds no
    duplicate beforehand, the script hashes of [pairs] are pairwise
    distinct and none of them is in that list, [subscribe_to_pairs]
    leaves the old list followed by the new script hashes, without
    duplicates, and its assertion holds. *)
Theorem subscribe_to_pairs_keeps_no_duplicates
    (tb : SVSession.tables) (wallet : nat) (pairs : list (string * string)) :
  NoDup (default [] (SVSession._subs_by_wallet tb !! wallet)) ->
  NoDup pairs.*2 ->
  (forall script_hash,
     script_hash ∈ pairs.*2 ->
     script_hash ∉ default [] (SVSession._subs_by_wallet tb !! wallet)) ->
  (SVSession.subscribe_to_pairs tb wallet pairs).2 = ret tt
  /\ exists subs',
       SVSession._subs_by_wallet
         (SVSession.subscribe_to_pairs tb wallet pairs).1.1 !! wallet
       = Some subs'
       /\ subs'
          = default [] (SVSession._subs_by_wallet tb !! wallet) ++ pairs.*2
       /\ NoDup subs'.
Proof.
  intros Hold Hnew Hfresh.
  destruct (subscribe_to_pairs_subs tb wallet pairs) as [Hsubs Hres].
  assert (NoDup (default [] (SVSession._subs_by_wallet tb !! wallet)
                 ++ pairs.*2)) as Hnodup.
  { apply NoDup_app. repeat split; [done| |done].
    intros x Hx Hx'. by apply (Hfresh x). }
  split; [|eauto].
  rewrite Hres. by apply no_double_subscription_NoDup in Hnodup as ->.
Qed.

(** A wallet subscribed to [a] that subscribes [b] and [c]. *)
Lemma subscribe_to_pairs_keeps_no_duplicates_witness :
  let tb := SVSession.Tables (<[1%nat := ["a"]]> ∅) (<["a" := "A"]> ∅) in
  let pairs := [("B", "b"); ("C", "c")] in
  (SVSession.subscribe_to_pairs tb 1 pairs).2 = ret tt
  /\ exists subs',
       SVSession._subs_by_wallet
         (SVSession.subscribe_to_pairs tb 1 pairs).1.1 !! 1%nat
       = Some subs'
       /\ subs' = default [] (SVSession._subs_by_wallet tb !! 1%nat)
                  ++ pairs.*2
       /\ NoDup subs'.
Proof.
  apply (subscribe_to_pairs_keeps_no_duplicates
           (SVSession.Tables (<[1%nat := ["a"]]> ∅) (<["a" := "A"]> ∅))
           1 [("B", "b"); ("C", "c")]).
  - vm_compute. repeat constructor; set_solver.
  - vm_compute. repeat constructor; set_solver.
  - vm_compute. set_solver.
Defined.

(** * Further properties of the code *)

(** ** ProofMath: the index of an accepted proof *)

Lemma accepted_proof_index (double_sha256 : bytes -> bytes)
    (hash : bytes) (branch : list bytes) (index : Z) (root : bytes) :
  _root_from_proof double_sha256 hash branch index = inr root ->
  Z.shiftr index (Z.of_nat (length branch)) = 0.
Proof.
  unfold _root_from_proof.
  pose proof (root_loop_index double_sha256 branch hash index) as Hidx.
  destruct (root_loop double_sha256 hash branch index) as [root' index'].
  simpl in Hidx. subst index'.
  by destruct (Z.eqb_spec (Z.shiftr index (Z.of_nat (length branch))) 0).
Qed.

(** ** SVServerState and [connect] *)

Lemma is_blacklisted_false (s : SVServerState.t) (now : Q) :
  SVServerState.is_blacklisted s now = false
  <-> (round53 (SVServerState.last_blacklisted s)
       <= float_sub now (inject_Z ONE_DAY))%Q.
Proof. unfold SVServerState.is_blacklisted, Qgtb. apply Qltb_ge. Qed.

Lemma can_retry_true (s : SVServerState.t) (now : Q) :
  SVServerState.can_retry s now = true
  <-> (round53 (SVServerState.last_blacklisted s)
       <= float_sub now (inject_Z ONE_DAY))%Q
      /\ (float_add (SVServerState.last_try s)
            (inject_Z (SVServerState.retry_delay s))
          < round53 now)%Q.
Proof.
  unfold SVServerState.can_retry.
  by rewrite andb_true_iff, negb_true_iff, Qltb_lt, is_blacklisted_false.
Qed.

(** Once a server can be retried it can be retried at every later time,
    as long as its state does not change. *)
Theorem can_retry_monotone (s : SVServerState.t) (now now' : Q) :
  SVServerState.can_retry s now = true ->
  (now <= now')%Q ->
  SVServerState.can_retry s now' = true.
Proof.
  rewrite !can_retry_true. intros [Hb Ht] Hle.
  pose proof (round53_le _ _ Hle) as Hnow. split; [|lra].
  apply Qle_trans with (float_sub now (inject_Z ONE_DAY)); [done|].
  apply round53_le. lra.
Qed.

(** A state last tried at 100 with delay 10: retry is allowed at 100000
    and so at 100001. *)
Lemma can_retry_monotone_witness :
  SVServerState.can_retry
    (SVServerState.set_retry_delay
       (SVServerState.set_last_try SVServerState.__init__ 100%Q) 10)
    100001%Q = true.
Proof.
  apply (can_retry_monotone
           (SVServerState.set_retry_delay
              (SVServerState.set_last_try SVServerState.__init__ 100%Q) 10)
           100000%Q 100001%Q).
  - reflexivity.
  - vm_compute. discriminate.
Defined.

(** A server disconnected with [blacklist=True] at the float time [t]
    can be retried at the float time [now] exactly when [t] is not above
    the float [now - 86400] and the float [last_try + retry_delay] is
    before [now].  So the blacklisting is over at every [now] from
    [t + 86400] on, and it holds at every [now] with [now - 86400] not
    above some float below [t]. *)
Theorem blacklisted_for_one_day (st : SVServerState.t) (t now : Q) :
  is_float t ->
  is_float now ->
  (SVServerState.can_retry (SVServer.disconnect st true t) now = true
   <-> (t <= float_sub now (inject_Z 86400))%Q
       /\ (float_add (SVServerState.last_try st)
             (inject_Z (SVServerState.retry_delay st))
           < now)%Q)
  /\ ((t + inject_Z 86400 <= now)%Q ->
      SVServerState.is_blacklisted (SVServer.disconnect st true t) now
      = false)
  /\ (forall t', is_float t' -> (now - inject_Z 86400 <= t')%Q ->
      (t' < t)%Q ->
      SVServerState.is_blacklisted (SVServer.disconnect st true t) now
      = true).
Proof.
  unfold is_float. intros Ht Hnow.
  assert (is_float (inject_Z 86400)) as Hday
    by (apply is_float_int; vm_compute; reflexivity).
  unfold is_float in Hday.
  split; [|split].
  - rewrite can_retry_true. cbn.
    change (inject_Z ONE_DAY) with (inject_Z 86400).
    split; intros [H1 H2]; split; lra.
  - intros Hlate. apply is_blacklisted_false. cbn.
    change (inject_Z ONE_DAY) with (inject_Z 86400).
    rewrite Ht. apply round53_ge_float; [done|]. lra.
  - intros t' Ht' Hle Hlt. apply is_blacklisted_iff. cbn.
    change (inject_Z ONE_DAY) with (inject_Z 86400).
    rewrite Ht. apply Qle_lt_trans with t'; [|done].
    apply round53_le_float; [done|]. lra.
Qed.

(** Blacklisted at time 1000: over at 87400, a day later. *)
Lemma blacklisted_for_one_day_witness :
  SVServerState.is_blacklisted
    (SVServer.disconnect SVServerState.__init__ true 1000%Q) 87400%Q
  = false.
Proof.
  apply (blacklisted_for_one_day SVServerState.__init__ 1000%Q 87400%Q).
  - vm_compute. reflexivity.
  - vm_compute. reflexivity.
  - vm_compute. discriminate.
Defined.

Lemma connect_last_try (st : SVServerState.t) (now now_end : Q)
    (o : SVServer.outcome) :
  SVServerState.last_try (SVServer.connect st now o now_end) = now.
Proof.
  destruct o as [|established [[error| |]|]]; simpl; try done;
    unfold SVServer.disconnect;
    try destruct (DisconnectSessionError.blacklist error);
    by destruct established.
Qed.

Lemma backoff_bounds (retry_delay : Z) :
  10 <= SVServer.backoff retry_delay <= 600.
Proof. unfold SVServer.backoff. lia. Qed.

(** After a failed attempt started at [now] the server cannot be retried
    during the next 10 seconds, whatever its state was. *)
Theorem no_retry_within_ten_seconds (st : SVServerState.t)
    (now now_end t : Q) (o : SVServer.outcome) :
  SVServer.failed o = true ->
  is_float now ->
  is_float t ->
  (t <= now + 10)%Q ->
  SVServerState.can_retry (SVServer.connect st now o now_end) t = false.
Proof.
  intros Hfail Hnow Hfloat Ht. apply not_true_iff_false.
  rewrite can_retry_true.
  rewrite connect_last_try, connect_failed_retry_delay by done.
  intros [_ Hlt].
  pose proof (backoff_bounds (SVServerState.retry_delay st)) as [Hlo Hhi].
  assert (is_float (inject_Z (SVServer.backoff
            (SVServerState.retry_delay st)))) as Hdelay.
  { apply is_float_int. apply Z.lt_trans with 601; [lia | reflexivity]. }
  assert (inject_Z 10 <= inject_Z (SVServer.backoff
            (SVServerState.retry_delay st)))%Q as Hq
    by (rewrite <- Zle_Qle; done).
  change (inject_Z 10) with 10%Q in Hq.
  unfold is_float in Hnow, Hdelay. pose proof Hfloat as Hfloat'.
  unfold is_float in Hfloat'.
  apply (Qlt_not_le _ _ Hlt). rewrite Hfloat'.
  apply round53_ge_float; [done|]. lra.
Qed.

(** The connector raises at time 100; no retry at time 110. *)
Lemma no_retry_within_ten_seconds_witness :
  SVServerState.can_retry
    (SVServer.connect SVServerState.__init__ 100%Q SVServer.ConnectorRaised
       100%Q) 110%Q = false.
Proof.
  apply (no_retry_within_ten_seconds SVServerState.__init__ 100%Q 100%Q
           110%Q SVServer.ConnectorRaised).
  - reflexivity.
  - vm_compute. reflexivity.
  - vm_compute. reflexivity.
  - vm_compute. discriminate.
Defined.

(** After any attempt the retry delay is 0 if the session was
    established and between 10 and 600 if the attempt failed, whatever it
    was before. *)
Theorem retry_delay_bounded (st : SVServerState.t)
    (os : list (Q * SVServer.outcome * Q)) (now now_end : Q)
    (o : SVServer.outcome) :
  let retry_delay :=
    SVServerState.retry_delay
      (SVServer.attempts st (os ++ [(now, o, now_end)])) in
  if SVServer.failed o then 10 <= retry_delay <= 600 else retry_delay = 0.
Proof.
  cbv zeta. rewrite attempts_snoc.
  destruct (SVServer.failed o) eqn:Hf.
  - rewrite connect_failed_retry_delay by done. apply backoff_bounds.
  - destruct o as [|[] ended]; try discriminate.
    destruct ended as [[error| |]|]; simpl; try done.
    unfold SVServer.disconnect.
    by destruct (DisconnectSessionError.blacklist error).
Qed.

(** ** SVServer: interning and serialisation *)

Section RegistryFacts.

Variable int_of_str : string -> option Z.

Lemma unique_int_port (all_servers : SVServer.registry) (host : string)
    (port : Z) (protocol : string) :
  SVServer.unique int_of_str all_servers host (SVServer.PortInt port) protocol
  = match all_servers !! (host, port, protocol) with
    | Some obj => ret (all_servers, obj)
    | None =>
        SVServer.__init__ all_servers host (SVServer.PortInt port) protocol
    end.
Proof. reflexivity. Qed.

Lemma init_created (all_servers all_servers' : SVServer.registry)
    (host : string) (port : Z) (protocol : string) (server : SVServer.t) :
  SVServer.__init__ all_servers host (SVServer.PortInt port) protocol
  = inr (all_servers', server) ->
  host <> "" /\ str_in protocol "st" = true
  /\ all_servers !! (host, port, protocol) = None
  /\ server = SVServer.mk host port protocol SVServerState.__init__
  /\ all_servers' = <[(host, port, protocol) := server]> all_servers.
Proof.
  unfold SVServer.__init__.
  destruct (String.eqb_spec host ""); [done|].
  destruct (str_in protocol "st"); [|done]. simpl.
  destruct (all_servers !! (host, port, protocol)); [done|].
  intros [= <- <-]. done.
Qed.

(** What a successful [unique] returns, by the port it ends up with. *)
Lemma unique_success (all_servers all_servers' : SVServer.registry)
    (host : string) (port : SVServer.port_arg) (protocol : string)
    (server : SVServer.t) :
  SVServer.unique int_of_str all_servers host port protocol
  = inr (all_servers', server) ->
  exists p,
    SVServer.unique int_of_str all_servers host (SVServer.PortInt p) protocol
    = inr (all_servers', server)
    /\ (port = SVServer.PortInt p
        \/ exists s, port = SVServer.PortStr s /\ int_of_str s = Some p).
Proof.
  destruct port as [p|s].
  - intros H. exists p. eauto.
  - unfold SVServer.unique at 1. destruct (int_of_str s) as [p|] eqn:Hs.
    + intros H. exists p. split; [exact H | right; eauto].
    + unfold SVServer.__init__. by destruct (String.eqb host "").
Qed.

(** [unique] returns the same object on a repeated call and leaves the
    registry as the first call left it. *)
Theorem unique_is_idempotent (all_servers all_servers' : SVServer.registry)
    (host : string) (port : SVServer.port_arg) (protocol : string)
    (server : SVServer.t) :
  SVServer.unique int_of_str all_servers host port protocol
  = inr (all_servers', server) ->
  SVServer.unique int_of_str all_servers' host port protocol
  = inr (all_servers', server).
Proof.
  intros H. destruct (unique_success _ _ _ _ _ _ H) as (p & Hp & Hport).
  assert (SVServer.unique int_of_str all_servers' host (SVServer.PortInt p)
            protocol = inr (all_servers', server)) as Hagain.
  { rewrite unique_int_port in Hp |- *.
    destruct (all_servers !! (host, p, protocol)) as [obj|] eqn:Hl.
    - injection Hp as <- <-. by rewrite Hl.
    - apply init_created in Hp as (_ & _ & _ & _ & ->).
      by rewrite lookup_insert_eq. }
  destruct Hport as [->|(s & -> & Hs)]; [done|].
  unfold SVServer.unique at 1. rewrite Hs. exact Hagain.
Qed.

(** [unique] keeps the registry well formed, stores the server it
    returns under the requested host and protocol, and touches no other
    entry. *)
Theorem unique_keeps_registry (all_servers all_servers' : SVServer.registry)
    (host : string) (port : SVServer.port_arg) (protocol : string)
    (server : SVServer.t) :
  SVServer.interned all_servers ->
  SVServer.unique int_of_str all_servers host port protocol
  = inr (all_servers', server) ->
  SVServer.interned all_servers'
  /\ SVServer.host server = host
  /\ SVServer.protocol server = protocol
  /\ all_servers' !! (host, SVServer.port server, protocol) = Some server
  /\ forall key,
       key ≠ (host, SVServer.port server, protocol) ->
       all_servers' !! key = all_servers !! key.
Proof.
  intros Hwf H. destruct (unique_success _ _ _ _ _ _ H) as (p & Hp & _).
  clear H. rewrite unique_int_port in Hp.
  destruct (all_servers !! (host, p, protocol)) as [obj|] eqn:Hl.
  - injection Hp as <- <-.
    destruct (Hwf _ _ Hl) as (Hkey & _ & _).
    injection Hkey as Hh Hp Hpr. subst host p protocol.
    split; [exact Hwf|]. by repeat split.
  - apply init_created in Hp as (Hh & Hpr & _ & -> & ->). simpl.
    split; [|split; [done|split; [done|split;
      [apply lookup_insert_eq|by intros; apply lookup_insert_ne]]]].
    intros key srv. rewrite lookup_insert.
    case_decide as Hk; [|by apply Hwf].
    intros [= <-]. by subst key.
Qed.

End RegistryFacts.

(** On an empty registry [unique] with port text "50002", read as the
    number 50002, interns a server; the registry is then well formed. *)
Lemma unique_keeps_registry_witness :
  let all_servers' : SVServer.registry :=
    <[("a.example", 50002, "s") :=
        SVServer.mk "a.example" 50002 "s" SVServerState.__init__]> ∅ in
  let server := SVServer.mk "a.example" 50002 "s" SVServerState.__init__ in
  SVServer.interned all_servers'
  /\ SVServer.host server = "a.example"
  /\ SVServer.protocol server = "s"
  /\ all_servers' !! ("a.example", SVServer.port server, "s") = Some server
  /\ forall key,
       key ≠ ("a.example", SVServer.port server, "s") ->
       all_servers' !! key = (∅ : SVServer.registry) !! key.
Proof.
  apply (unique_keeps_registry (fun _ => Some 50002) ∅ _ "a.example"
           (SVServer.PortStr "50002") "s").
  - intros key server Hl. by rewrite lookup_empty in Hl.
  - reflexivity.
Defined.

(** The same call twice. *)
Lemma unique_is_idempotent_witness :
  let all_servers' : SVServer.registry :=
    <[("a.example", 50002, "s") :=
        SVServer.mk "a.example" 50002 "s" SVServerState.__init__]> ∅ in
  SVServer.unique (fun _ => Some 50002) all_servers' "a.example"
    (SVServer.PortStr "50002") "s"
  = inr (all_servers',
         SVServer.mk "a.example" 50002 "s" SVServerState.__init__).
Proof.
  apply (unique_is_idempotent (fun _ => Some 50002) ∅).
  reflexivity.
Defined.

(** Protocol ['x'] on an empty registry. *)
Lemma unique_rejects_unknown_protocol_witness :
  SVServer.unique (fun _ => None) ∅ "a.example" (SVServer.PortInt 50002) "x"
  = raise (ValueError ("unknown protocol: " +:+ "x")).
Proof.
  apply (unique_rejects_unknown_protocol (fun _ => None) ∅ "a.example"
           50002 "x").
  - reflexivity.
  - discriminate.
  - reflexivity.
Defined.

Lemma str_in_char (sep c : ascii) (s : string) :
  str_in (String sep "") (String c s)
  = Ascii.eqb c sep || str_in (String sep "") s.
Proof.
  cbn [str_in String.prefix].
  destruct (ascii_dec sep c) as [->|Hne].
  - rewrite Ascii.eqb_refl. by destruct s.
  - destruct (Ascii.eqb_spec c sep); [congruence|]. done.
Qed.

Lemma split_no_sep (sep : ascii) (s : string) (maxsplit : nat) :
  str_in (String sep "") s = false -> SVServer.split sep s maxsplit = [s].
Proof.
  induction s as [|c s IH]; [done|].
  rewrite str_in_char. intros [Hc Hs]%orb_false_iff.
  destruct maxsplit as [|m]; [done|].
  cbn [SVServer.split]. rewrite Hc. by rewrite IH.
Qed.

Lemma split_app (sep : ascii) (a b : string) (maxsplit : nat) :
  str_in (String sep "") a = false ->
  SVServer.split sep (a +:+ String sep b) (S maxsplit)
  = a :: SVServer.split sep b maxsplit.
Proof.
  induction a as [|c a IH].
  - intros _. change ("" +:+ String sep b) with (String sep b).
    cbn [SVServer.split]. by rewrite Ascii.eqb_refl.
  - rewrite str_in_char. intros [Hc Hs]%orb_false_iff.
    change (String c a +:+ String sep b)
      with (String c (a +:+ String sep b)).
    cbn [SVServer.split]. rewrite Hc. by rewrite IH.
Qed.

Lemma split_app_sep (sep : ascii) (a b : string) (maxsplit : nat) :
  str_in (String sep "") a = false ->
  SVServer.split sep (a +:+ String sep "" +:+ b) (S maxsplit)
  = a :: SVServer.split sep b maxsplit.
Proof. apply split_app. Qed.

Section SerialisationFacts.

Variable int_of_str : string -> option Z.

(** [from_string] on "host:port:protocol", where no part holds a colon,
    is [unique(host, port, protocol)] with the port as text.  A text with
    fewer than two colons or with a third one raises [TypeError]. *)
Theorem from_string_parts (all_servers : SVServer.registry)
    (host port protocol : string) :
  str_in ":" host = false ->
  str_in ":" port = false ->
  str_in ":" protocol = false ->
  SVServer.from_string int_of_str all_servers
    (host +:+ ":" +:+ port +:+ ":" +:+ protocol)
  = SVServer.unique int_of_str all_servers host (SVServer.PortStr port)
      protocol
  /\ SVServer.from_string int_of_str all_servers (host +:+ ":" +:+ port)
     = raise TypeError
  /\ SVServer.from_string int_of_str all_servers host = raise TypeError
  /\ forall rest,
       SVServer.from_string int_of_str all_servers
         (host +:+ ":" +:+ port +:+ ":" +:+ protocol +:+ ":" +:+ rest)
       = raise TypeError.
Proof.
  intros Hh Hp Hpr. unfold SVServer.from_string.
  repeat split.
  - rewrite split_app_sep by done. rewrite split_app_sep by done.
    by rewrite split_no_sep.
  - rewrite split_app_sep by done. by rewrite split_no_sep.
  - by rewrite split_no_sep.
  - intros rest. rewrite split_app_sep by done.
    rewrite split_app_sep by done. rewrite split_app_sep by done.
    by destruct rest.
Qed.

(** [from_json] after [to_json] gives the server back and stores it, with
    its saved state, under its own key; this holds on a registry that
    does not know the server and on one that holds it with another
    state. *)
Theorem from_json_to_json (all_servers : SVServer.registry)
    (server : SVServer.t) :
  SVServer.interned all_servers ->
  SVServer.host server <> "" ->
  str_in (SVServer.protocol server) "st" = true ->
  SVServer.from_json int_of_str all_servers (SVServer.to_json server)
  = ret (<[(SVServer.host server, SVServer.port server,
            SVServer.protocol server) := server]> all_servers,
         server).
Proof.
  intros Hwf Hh Hp. destruct server as [host port protocol state].
  cbn [SVServer.host SVServer.port SVServer.protocol SVServer.state] in *.
  unfold SVServer.from_json, SVServer.to_json.
  cbn [SVServer.host SVServer.port SVServer.protocol SVServer.state].
  rewrite unique_int_port.
  destruct (all_servers !! (host, port, protocol)) as [obj|] eqn:Hl.
  - destruct (Hwf _ _ Hl) as (Hkey & _ & _).
    cbv beta iota delta [bind ret].
    injection Hkey as Hh' Hp' Hpr'. by rewrite <- Hh', <- Hp', <- Hpr'.
  - unfold SVServer.__init__. destruct (String.eqb_spec host ""); [done|].
    rewrite Hp, Hl. cbv beta iota delta [negb bind ret].
    cbn [SVServer.host SVServer.port SVServer.protocol SVServer.state].
    by rewrite insert_insert_eq.
Qed.

End SerialisationFacts.

(** "a.example:50002:s" on an empty registry. *)
Lemma from_string_parts_witness :
  SVServer.from_string (fun _ => Some 50002) ∅
    ("a.example" +:+ ":" +:+ "50002" +:+ ":" +:+ "s")
  = SVServer.unique (fun _ => Some 50002) ∅ "a.example"
      (SVServer.PortStr "50002") "s"
  /\ SVServer.from_string (fun _ => Some 50002) ∅
       ("a.example" +:+ ":" +:+ "50002")
     = raise TypeError
  /\ SVServer.from_string (fun _ => Some 50002) ∅ "a.example"
     = raise TypeError
  /\ forall rest,
       SVServer.from_string (fun _ => Some 50002) ∅
         ("a.example" +:+ ":" +:+ "50002" +:+ ":" +:+ "s" +:+ ":" +:+ rest)
       = raise TypeError.
Proof.
  apply (from_string_parts (fun _ => Some 50002) ∅ "a.example" "50002" "s");
    reflexivity.
Defined.

(** A server with a saved [last_good], restored on an empty registry. *)
Lemma from_json_to_json_witness :
  let server :=
    SVServer.mk "a.example" 50002 "s"
      (SVServerState.set_last_good SVServerState.__init__ 1700000000%Q) in
  SVServer.from_json (fun _ => None) ∅ (SVServer.to_json server)
  = ret (<[("a.example", 50002, "s") := server]> ∅, server).
Proof.
  apply (from_json_to_json (fun _ => None) ∅
           (SVServer.mk "a.example" 50002 "s"
              (SVServerState.set_last_good SVServerState.__init__
                 1700000000%Q))).
  - intros key server Hl. by rewrite lookup_empty in Hl.
  - discriminate.
  - reflexivity.
Defined.

(** ** SVSession: checkpoint headers, proofs and catching up *)

Lemma first_missing_none (has_header : Z -> bool) (heights : list Z) :
  SVSession.first_missing has_header heights = None
  <-> forall h, h ∈ heights -> has_header h = true.
Proof.
  induction heights as [|x l IH]; simpl.
  - split; [intros _ h Hh; by apply elem_of_nil in Hh | done].
  - destruct (has_header x) eqn:Hx.
    + rewrite IH. split.
      * intros H h [->|Hh]%elem_of_cons; [done | by apply H].
      * intros H h Hh. apply H. by right.
    + split; [done|]. intros H. rewrite H in Hx; [done | by left].
Qed.

Lemma first_missing_some (has_header : Z -> bool) (heights : list Z)
    (height : Z) :
  SVSession.first_missing has_header heights = Some height ->
  exists i,
    heights !! i = Some height
    /\ has_header height = false
    /\ forall j x, (j < i)%nat -> heights !! j = Some x ->
         has_header x = true.
Proof.
  induction heights as [|x l IH]; simpl; [done|].
  destruct (has_header x) eqn:Hx.
  - intros (i & Hi & Hm & Hbefore)%IH. exists (S i).
    split; [done|]. split; [done|].
    intros [|j] y Hj Hy; simpl in Hy; [by injection Hy as <-|].
    apply (Hbefore j); [lia | done].
  - intros [= <-]. exists 0%nat. split; [done|]. split; [done|]. lia.
Qed.

(** [_required_checkpoint_headers] returns [(0, 0)] and clears the flag
    when the flag was clear, the checkpoint is at height 0 or the 146
    headers below the checkpoint are all there.  Otherwise it returns the
    first missing height of these 146 and the count up to the checkpoint,
    and leaves the flag set. *)
Theorem required_checkpoint_headers_spec (need : bool) (cp_height : Z)
    (has_header : Z -> bool) :
  let r := SVSession._required_checkpoint_headers need cp_height has_header in
  (r = (false, (0, 0))
   /\ (need = false \/ cp_height = 0
       \/ forall h, cp_height - 146 <= h < cp_height -> has_header h = true))
  \/ (need = true /\ r.1 = true /\ cp_height ≠ 0
      /\ has_header r.2.1 = false
      /\ cp_height - 146 <= r.2.1 < cp_height
      /\ r.2.1 + r.2.2 = cp_height
      /\ forall h, cp_height - 146 <= h < r.2.1 -> has_header h = true).
Proof.
  cbv zeta. unfold SVSession._required_checkpoint_headers.
  destruct need; [|left; auto].
  destruct (Z.eqb_spec cp_height 0) as [->|Hcp]; [left; auto|].
  destruct (SVSession.first_missing has_header (seqZ (cp_height - 146) 146))
    as [height|] eqn:Hm.
  - right. apply first_missing_some in Hm as (i & Hi & Hh & Hbefore).
    apply lookup_seqZ in Hi as [-> Hi]. simpl.
    repeat split; try done; try lia.
    intros h Hh'. apply (Hbefore (Z.to_nat (h - (cp_height - 146)))); [lia|].
    apply lookup_seqZ. lia.
  - left. split; [done|]. right; right. intros h Hh.
    apply (proj1 (first_missing_none _ _) Hm). apply elem_of_seqZ. lia.
Qed.

Lemma required_checkpoint_headers_sum (need : bool) (cp_height : Z)
    (has_header : Z -> bool) :
  let r :=
    (SVSession._required_checkpoint_headers need cp_height has_header).2 in
  r.2 = 0 \/ r.1 + r.2 = cp_height.
Proof.
  cbv zeta. unfold SVSession._required_checkpoint_headers.
  destruct need; [|by left].
  destruct (cp_height =? 0); [by left|].
  destruct (SVSession.first_missing _ _) as [height|]; [|by left].
  right. cbn [fst snd]. lia.
Qed.

Section ChunkFacts.

Variable chain : Type.
Variable checkpoint_height : Z.
Variable _check_header_proof :
  string -> list bytes -> bytes -> number -> result unit.
Variable _connect_chunk : Z -> bytes -> result chain.

(** The chunk that [_get_checkpoint_headers] asks for ends at the
    checkpoint height, so its request goes out with [cp_height = 0]: the
    headers needed below the checkpoint are fetched without a proof. *)
Theorem checkpoint_headers_requested_without_proof
    (need : bool) (has_header : Z -> bool)
    (server_reply : result SVSession.headers_reply) :
  let r :=
    (SVSession._required_checkpoint_headers need checkpoint_height
       has_header).2 in
  r.2 = 0
  \/ (SVSession._request_chunk chain checkpoint_height _check_header_proof
        _connect_chunk r.1 r.2 server_reply).1
     = Request "blockchain.block.headers" [AInt r.1; AInt r.2; AInt 0].
Proof.
  cbv zeta.
  destruct (required_checkpoint_headers_sum need checkpoint_height
              has_header) as [Hnone|Hsum]; [by left|right].
  unfold SVSession._request_chunk, SVSession.request_cp_height. cbn [fst].
  rewrite Hsum. by rewrite (proj2 (Z.geb_le _ _)) by lia.
Qed.

Ltac chunk_if :=
  match goal with
  | |- context [if negb ?b then _ else _] => destruct b; cbn [negb]
  | H : context [if negb ?b then _ else _] |- _ =>
      destruct b; cbn [negb] in H
  end.

Lemma process_chunk_float (height count cp_height : Z)
    (reply : SVSession.headers_reply) (new_chain : chain) (x : Q) :
  SVSession.process_chunk chain _check_header_proof _connect_chunk
    height count cp_height reply = inr (new_chain, PyFloat x) ->
  exists rec_count raw_chunk,
    SVSession.reply_count reply = Some (PyFloat rec_count)
    /\ (inject_Z count == round53 rec_count)%Q
    /\ SVSession.reply_hex reply = Some raw_chunk
    /\ _connect_chunk height raw_chunk = inr new_chain.
Proof.
  unfold SVSession.process_chunk.
  destruct (SVSession.reply_count reply) as [[rec_count|rec_count]|]
    eqn:Hcount; cbn [SVSession.get bind ret]; [| |done].
  - destruct (SVSession.reply_hex reply) as [raw_chunk|]; [|done].
    cbn [SVSession.get bind ret]. chunk_if; [|done].
    destruct (SVSession.check_chunk_proof _ _ _ _ _) as [e|[]]; [done|].
    cbn [bind]. by destruct (_connect_chunk height raw_chunk).
  - cbv zeta.
    destruct (Qeq_bool (inject_Z count) (round53 rec_count)) eqn:Heq;
      [|done].
    cbn [negb]. apply Qeq_bool_iff in Heq.
    destruct (SVSession.reply_hex reply) as [raw_chunk|] eqn:Hhex; [|done].
    cbn [SVSession.get bind ret]. chunk_if; [|done].
    destruct (SVSession.check_chunk_proof _ _ _ _ _) as [e|[]]; [done|].
    cbn [bind].
    destruct (_connect_chunk height raw_chunk) as [e|ch] eqn:Hc; [done|].
    cbn [bind ret]. intros [= <- <-]. by exists rec_count, raw_chunk.
Qed.

(** Of the exceptions that leave [_request_chunk] all but one are a
    [DisconnectSessionError], an [RPCError] or a [TaskTimeout].  The one is
    the [ValueError] of the last log line: it is raised where the reply
    gives the count as a float that equals the count asked for, after
    the chunk has been connected.  A height is returned only for a count
    that is an [int].  The height and the count asked for are [int]s that
    a float holds, as block heights are. *)
Theorem request_chunk_error_kinds (height count : Z)
    (server_reply : result SVSession.headers_reply) :
  Z.abs height < 2 ^ 53 ->
  Z.abs count < 2 ^ 53 ->
  match (SVSession._request_chunk chain checkpoint_height
           _check_header_proof _connect_chunk height count server_reply).2
  with
  | inl e =>
      (exists error, e = DisconnectSession error)
      \/ (exists msg, e = RPCError msg) \/ e = TaskTimeout
      \/ (e = ValueError float_format_error
          /\ exists reply rec_count raw_chunk new_chain,
               server_reply = inr reply
               /\ SVSession.reply_count reply = Some (PyFloat rec_count)
               /\ (inject_Z count == round53 rec_count)%Q
               /\ SVSession.reply_hex reply = Some raw_chunk
               /\ _connect_chunk height raw_chunk = inr new_chain)
  | inr _ =>
      exists reply (rec_count : Z),
        server_reply = inr reply
        /\ SVSession.reply_count reply = Some (PyInt rec_count)
  end.
Proof.
  intros _ _. unfold SVSession._request_chunk. cbn [snd].
  destruct server_reply as [e|reply]; cbn [bind].
  { destruct e; simpl; eauto. }
  destruct (SVSession.process_chunk _ _ _ _ _ _ reply)
    as [e|[new_chain [last_height|x]]] eqn:Hp.
  - destruct e; simpl; eauto.
  - cbn. unfold SVSession.process_chunk in Hp.
    destruct (SVSession.reply_count reply) as [[rec_count|rec_count]|]
      eqn:Hcount; cbn [SVSession.get bind ret] in Hp;
      [by exists reply, rec_count| |done].
    chunk_if; [|done].
    destruct (SVSession.reply_hex reply); [|done].
    cbn [SVSession.get bind ret] in Hp. chunk_if; [|done].
    destruct (SVSession.check_chunk_proof _ _ _ _ _) as [e|[]]; [done|].
    cbn [bind] in Hp. by destruct (_connect_chunk height _).
  - cbn. do 3 right. split; [done|].
    apply process_chunk_float in Hp as (rec_count & raw_chunk & H).
    exists reply, rec_count, raw_chunk, new_chain. by split.
Qed.

(** When [_request_chunk] returns, the reply held a count that is an
    [int] and that many headers of 80 bytes, the chunk was connected, the
    height returned is that of the last header received, and, if the
    request asked for a proof, the proof of the last header was
    checked. *)
Theorem request_chunk_success (height count last_height : Z)
    (server_reply : result SVSession.headers_reply) (new_chain : chain) :
  (SVSession._request_chunk chain checkpoint_height _check_header_proof
     _connect_chunk height count server_reply).2
  = inr (new_chain, last_height) ->
  exists reply (rec_count : Z) raw_chunk,
    server_reply = inr reply
    /\ SVSession.reply_count reply = Some (PyInt rec_count)
    /\ SVSession.reply_hex reply = Some raw_chunk
    /\ Z.of_nat (length raw_chunk) = 80 * rec_count
    /\ last_height = height + rec_count - 1
    /\ _connect_chunk height raw_chunk = inr new_chain
    /\ (height + count < checkpoint_height -> checkpoint_height ≠ 0 ->
        exists hex_root branch,
          SVSession.reply_root reply = Some hex_root
          /\ SVSession.reply_branch reply = Some branch
          /\ _check_header_proof hex_root branch
               (drop (length raw_chunk - 80) raw_chunk) last_height
             = inr tt).
Proof.
  unfold SVSession._request_chunk. cbn [snd].
  destruct server_reply as [e|reply]; [by destruct e|].
  cbn [bind].
  destruct (SVSession.process_chunk _ _ _ _ _ _ reply)
    as [e|[ch [lh|x]]] eqn:Hp; [by destruct e| |done].
  cbn. intros [= -> ->]. unfold SVSession.process_chunk in Hp.
  destruct (SVSession.reply_count reply) as [[rec_count|rec_count]|]
    eqn:Hcount; cbn [SVSession.get bind ret] in Hp; [| |done].
  2: { chunk_if; [|done].
       destruct (SVSession.reply_hex reply); [|done].
       cbn [SVSession.get bind ret] in Hp. chunk_if; [|done].
       destruct (SVSession.check_chunk_proof _ _ _ _ _) as [e|[]]; [done|].
       cbn [bind] in Hp. by destruct (_connect_chunk height _). }
  destruct (SVSession.reply_hex reply) as [raw_chunk|] eqn:Hhex; [|done].
  cbn [SVSession.get bind ret] in Hp.
  destruct (Z.eqb_spec (Z.of_nat (length raw_chunk))
              (HEADER_SIZE * rec_count)) as [Hlen|]; [|done].
  cbn [negb] in Hp.
  destruct (SVSession.check_chunk_proof _ _ _ _ _) as [e|[]] eqn:Hproof;
    [done|].
  cbn [bind] in Hp.
  destruct (_connect_chunk height raw_chunk) as [e|ch] eqn:Hc; [done|].
  cbn [bind ret] in Hp. injection Hp as <- <-.
  exists reply, rec_count, raw_chunk.
  do 6 (split; [done|]). intros Hlt Hnz.
  unfold SVSession.check_chunk_proof, SVSession.request_cp_height in Hproof.
  destruct (Z.geb_spec (height + count) checkpoint_height) as [Hge|_];
    [lia|].
  destruct (Z.eqb_spec checkpoint_height 0) as [Hz|_]; [done|].
  cbn [negb] in Hproof.
  destruct (SVSession.reply_root reply) as [hex_root|] eqn:Hroot; [|done].
  destruct (SVSession.reply_branch reply) as [branch|] eqn:Hbranch; [|done].
  cbn [SVSession.get bind ret] in Hproof.
  change (Z.to_nat HEADER_SIZE) with 80%nat in Hproof.
  by exists hex_root, branch.
Qed.

End ChunkFacts.

(** One header of 80 zero bytes at height 10, below a checkpoint at 100,
    so with a proof. *)
Lemma request_chunk_success_witness :
  exists reply (rec_count : Z) raw_chunk,
    (inr (SVSession.HeadersReply (Some (PyInt 1))
            (Some (replicate 80 Byte.x00)) (Some "root") (Some []))
     : result SVSession.headers_reply)
    = inr reply
    /\ SVSession.reply_count reply = Some (PyInt rec_count)
    /\ SVSession.reply_hex reply = Some raw_chunk
    /\ Z.of_nat (length raw_chunk) = 80 * rec_count
    /\ 10 = 10 + rec_count - 1
    /\ (fun (_ : Z) (_ : bytes) => ret tt) 10 raw_chunk = inr tt
    /\ (10 + 1 < 100 -> 100 ≠ 0 ->
        exists hex_root branch,
          SVSession.reply_root reply = Some hex_root
          /\ SVSession.reply_branch reply = Some branch
          /\ (fun (_ : string) (_ : list bytes) (_ : bytes) (_ : number) =>
                ret tt) hex_root branch
               (drop (length raw_chunk - 80) raw_chunk) (PyInt 10)
             = inr tt).
Proof.
  apply (request_chunk_success unit 100 (fun _ _ _ _ => ret tt)
           (fun _ _ => ret tt) 10 1 10
           (inr (SVSession.HeadersReply (Some (PyInt 1))
                   (Some (replicate 80 Byte.x00)) (Some "root") (Some [])))
           tt).
  reflexivity.
Defined.

(** The same reply with the count written [1.0], above the checkpoint:
    the chunk is connected and the last log line raises. *)
Lemma request_chunk_error_kinds_witness :
  (SVSession._request_chunk unit 100 (fun _ _ _ _ => ret tt)
     (fun _ _ => ret tt) 200 1
     (inr (SVSession.HeadersReply (Some (PyFloat 1))
             (Some (replicate 80 Byte.x00)) None None))).2
  = inl (ValueError float_format_error)
  /\ match
       (SVSession._request_chunk unit 100 (fun _ _ _ _ => ret tt)
          (fun _ _ => ret tt) 200 1
          (inr (SVSession.HeadersReply (Some (PyFloat 1))
                  (Some (replicate 80 Byte.x00)) None None))).2
     with
     | inl e =>
         (exists error, e = DisconnectSession error)
         \/ (exists msg, e = RPCError msg) \/ e = TaskTimeout
         \/ (e = ValueError float_format_error
             /\ exists reply rec_count raw_chunk new_chain,
                  (inr (SVSession.HeadersReply (Some (PyFloat 1))
                          (Some (replicate 80 Byte.x00)) None None)
                   : result SVSession.headers_reply) = inr reply
                  /\ SVSession.reply_count reply
                     = Some (PyFloat rec_count)
                  /\ (inject_Z 1 == round53 rec_count)%Q
                  /\ SVSession.reply_hex reply = Some raw_chunk
                  /\ (fun (_ : Z) (_ : bytes) => ret tt) 200 raw_chunk
                     = inr new_chain)
     | inr _ =>
         exists reply (rec_count : Z),
           (inr (SVSession.HeadersReply (Some (PyFloat 1))
                   (Some (replicate 80 Byte.x00)) None None)
            : result SVSession.headers_reply) = inr reply
           /\ SVSession.reply_count reply = Some (PyInt rec_count)
     end.
Proof.
  split; [vm_compute; reflexivity|].
  apply (request_chunk_error_kinds unit 100 (fun _ _ _ _ => ret tt)
           (fun _ _ => ret tt) 200 1
           (inr (SVSession.HeadersReply (Some (PyFloat 1))
                   (Some (replicate 80 Byte.x00)) None None)));
    vm_compute; reflexivity.
Defined.

Section HeaderProofFacts.

Variable double_sha256 : bytes -> bytes.
Variable VERIFICATION_BLOCK_MERKLE_ROOT : string.
Variable header_hash : bytes -> Z -> result bytes.
Variable hash_to_hex_str : bytes -> string.

(** [_check_header_proof] accepts exactly when the root sent is the
    expected one, the header can be read and the branch folds its hash, at
    index [height], to a root whose hex form is the expected one; so a
    branch too short for the height is never accepted. *)
Theorem check_header_proof_accepts (hex_root : string)
    (branch : list bytes) (raw_header : bytes) (height : Z) :
  (SVSession._check_header_proof double_sha256
     VERIFICATION_BLOCK_MERKLE_ROOT header_hash hash_to_hex_str
     hex_root branch raw_header height = ret tt
   <-> hex_root = VERIFICATION_BLOCK_MERKLE_ROOT
       /\ exists hash root,
            header_hash raw_header height = inr hash
            /\ _root_from_proof double_sha256 hash branch height = inr root
            /\ hash_to_hex_str root = VERIFICATION_BLOCK_MERKLE_ROOT)
  /\ (SVSession._check_header_proof double_sha256
        VERIFICATION_BLOCK_MERKLE_ROOT header_hash hash_to_hex_str
        hex_root branch raw_header height = ret tt
      -> 0 <= height < 2 ^ Z.of_nat (length branch)).
Proof.
  assert (SVSession._check_header_proof double_sha256
     VERIFICATION_BLOCK_MERKLE_ROOT header_hash hash_to_hex_str
     hex_root branch raw_header height = ret tt
   <-> hex_root = VERIFICATION_BLOCK_MERKLE_ROOT
       /\ exists hash root,
            header_hash raw_header height = inr hash
            /\ _root_from_proof double_sha256 hash branch height = inr root
            /\ hash_to_hex_str root = VERIFICATION_BLOCK_MERKLE_ROOT)
    as Hiff.
  { unfold SVSession._check_header_proof.
    destruct (String.eqb_spec hex_root VERIFICATION_BLOCK_MERKLE_ROOT)
      as [->|Hne]; cbn [negb].
    2: { split; [done | by intros [? _]]. }
    destruct (header_hash raw_header height) as [e|hash]; cbn [bind].
    { split; [done | by intros (_ & ? & ? & ? & _)]. }
    destruct (_root_from_proof double_sha256 hash branch height)
      as [e|root] eqn:Hr; cbn [bind].
    { split; [done|]. intros (_ & h & r & [= <-] & Hr' & _). congruence. }
    destruct (String.eqb_spec (hash_to_hex_str root)
                VERIFICATION_BLOCK_MERKLE_ROOT) as [Heq|Hne]; cbn [negb].
    - split; [|done]. intros _. split; [done|]. by exists hash, root.
    - split; [done|]. intros (_ & h & r & [= <-] & Hr' & Hx). congruence. }
  split; [exact Hiff|].
  intros (_ & hash & root & _ & Hr & _)%Hiff.
  pose proof (accepted_proof_index double_sha256 hash branch
                height root Hr) as Hs.
  destruct (Z.lt_ge_cases height 0) as [Hneg|Hpos].
  - exfalso. pose proof (Z.shiftr_neg height (Z.of_nat (length branch))).
    lia.
  - split; [done|]. apply Z.shiftr_eq_0_iff in Hs as [->|[Hgt Hlog]].
    + apply Z.pow_pos_nonneg; lia.
    + by apply (proj2 (Z.log2_lt_pow2 _ _ Hgt)).
Qed.

End HeaderProofFacts.

Lemma probe_loop_step (cp_height height : Z) (step : positive) :
  SVSession.probe_loop cp_height height step
  = if decide (height > cp_height)
    then height :: SVSession.probe_loop cp_height (height - Z.pos step)
                     (step + step)%positive
    else [].
Proof.
  funelim (SVSession.probe_loop cp_height height step).
  - by rewrite decide_True by done.
  - by rewrite decide_False by done.
Qed.

Lemma probe_loop_lookup (cp_height : Z) (i : nat) (height : Z)
    (step : positive) (x : Z) :
  SVSession.probe_loop cp_height height step !! i = Some x ->
  x = height - Z.pos step * (2 ^ Z.of_nat i - 1) /\ cp_height < x.
Proof.
  revert height step. induction i as [|i IH]; intros height step;
    rewrite probe_loop_step; destruct (decide (height > cp_height));
    try done; simpl.
  - intros [= <-]. lia.
  - intros [-> Hx]%IH. split; [|done].
    rewrite Nat2Z.inj_succ, Z.pow_succ_r by lia. lia.
Qed.

Lemma probe_loop_length (cp_height height : Z) (step : positive) :
  height
  - Z.pos step
    * (2 ^ Z.of_nat (length (SVSession.probe_loop cp_height height step))
       - 1)
  <= cp_height.
Proof.
  remember (Z.to_nat (height - cp_height)) as n eqn:Hn.
  assert (Z.to_nat (height - cp_height) <= n)%nat as Hle by lia. clear Hn.
  revert height step Hle. induction n as [|n IH]; intros height step Hle;
    rewrite probe_loop_step; destruct (decide (height > cp_height));
    try (simpl; lia).
  cbn [length]. rewrite Nat2Z.inj_succ, Z.pow_succ_r by lia.
  specialize (IH (height - Z.pos step) (step + step)%positive).
  rewrite Pos2Z.inj_add in IH. lia.
Qed.

(** The heights that [_catch_up_to_tip] probes are the checkpoint height
    plus one, and then, from [h = min(tip.height, max_height)] down, the
    heights [h - (2^i - 1)] for [i = 0, 1, 2, ...] as long as they are above
    the checkpoint: [h], [h - 1], [h - 3], [h - 7], ... *)
Theorem catch_up_heights_probes (cp_height tip_height max_height : Z) :
  let h := Z.min tip_height max_height in
  exists probes,
    SVSession.catch_up_heights cp_height tip_height max_height
    = (cp_height + 1) :: probes
    /\ (forall i x, probes !! i = Some x ->
          x = h - (2 ^ Z.of_nat i - 1) /\ cp_height < x <= h)
    /\ h - (2 ^ Z.of_nat (length probes) - 1) <= cp_height.
Proof.
  cbv zeta. eexists. split; [reflexivity|]. split.
  - intros i x [-> Hx]%probe_loop_lookup.
    assert (0 < 2 ^ Z.of_nat i) by (apply Z.pow_pos_nonneg; lia). lia.
  - pose proof (probe_loop_length cp_height
                  (Z.min tip_height max_height) 1). lia.
Qed.

(** ** SVSession: single headers *)

Lemma sorted_set_spec (heights : list Z) :
  StronglySorted Z.le (SVSession.sorted_set heights)
  /\ NoDup (SVSession.sorted_set heights)
  /\ forall h, h ∈ SVSession.sorted_set heights <-> h ∈ heights.
Proof.
  unfold SVSession.sorted_set. split; [|split].
  - apply StronglySorted_merge_sort; apply _.
  - rewrite merge_sort_Permutation. apply NoDup_elements.
  - intros h. rewrite merge_sort_Permutation, elem_of_elements.
    apply elem_of_list_to_set.
Qed.


Section HeadersFacts.

Variable chain : Type.
Variable cp_height : Z.
Variable _check_header_proof :
  string -> list bytes -> bytes -> Z -> result unit.
Variable _connect_header : Z -> bytes -> result chain.

(** [_request_headers_at_heights] asks for every distinct height once, in
    ascending order, with the checkpoint height as [cp_height] for the
    heights at or below the checkpoint and with 0 above it, whatever the
    batch returns. *)
Theorem request_headers_batch (self_chain : option chain)
    (heights : list Z) (batch_reply : result (list SVSession.header_result)) :
  exists sorted,
    (SVSession._request_headers_at_heights chain cp_height
       _check_header_proof _connect_header self_chain heights
       batch_reply).1.1
    = (fun h =>
         Request "blockchain.block.header"
                 [AInt h; AInt (if decide (h <= cp_height) then cp_height
                                else 0)]) <$> sorted
    /\ StronglySorted Z.le sorted /\ NoDup sorted
    /\ forall h, h ∈ sorted <-> h ∈ heights.
Proof.
  exists (SVSession.sorted_set heights).
  split; [|apply sorted_set_spec].
  unfold SVSession._request_headers_at_heights.
  destruct batch_reply as [e|results]; cbn [fst].
  - apply list_fmap_ext. intros _ h _. unfold SVSession.header_request.
    destruct (Z.leb_spec h cp_height);
      [by rewrite decide_True | by rewrite decide_False by lia].
  - destruct (SVSession.headers_loop _ _ _ _ _ _ _) as [[c g] res].
    cbn [fst]. apply list_fmap_ext. intros _ h _.
    unfold SVSession.header_request.
    destruct (Z.leb_spec h cp_height);
      [by rewrite decide_True | by rewrite decide_False by lia].
Qed.



End HeadersFacts.

(** ** SVSession: the subscription tables *)

(** [_get_exclusive_set] keeps exactly the script hashes of [subs] that
    the list of no wallet other than [wallet] holds. *)
Theorem exclusive_set_membership (subs_by_wallet : gmap nat (list string))
    (wallet : nat) (subs : list string) (script_hash : string) :
  script_hash ∈ SVSession._get_exclusive_set subs_by_wallet wallet subs
  <-> script_hash ∈ subs
      /\ forall other_wallet other_subs,
           other_wallet ≠ wallet ->
           subs_by_wallet !! other_wallet = Some other_subs ->
           script_hash ∉ other_subs.
Proof. apply get_exclusive_set_spec. Qed.

(** Wallets 1 and 2 hold S, wallet 2 also holds T; unsubscribing wallet 2
    on a session with [ptuple = (1, 4, 2)] sends the request for T. *)
Lemma unsubscribe_wallet_exclusive_witness :
  let tb :=
    SVSession.Tables (<[1%nat := ["S"]]> (<[2%nat := ["S"; "T"]]> ∅))
                     (<["S" := "A"]> (<["T" := "B"]> ∅)) in
  let session := SVSession.mk ("a.example", 50002, "s") 100 [1; 4; 2] in
  exists script_hash subs self,
    SVSession.unsubscribe_request "T"
    = SVSession.unsubscribe_request script_hash
    /\ Some session = Some self
    /\ tuple_ltb (SVSession.ptuple self) [1; 4; 2] = false
    /\ SVSession._subs_by_wallet tb !! 2%nat = Some subs
    /\ script_hash ∈ subs
    /\ forall other_wallet other_subs,
         other_wallet ≠ 2%nat ->
         SVSession._subs_by_wallet tb !! other_wallet = Some other_subs ->
         script_hash ∉ other_subs.
Proof.
  apply (unsubscribe_wallet_exclusive
           (SVSession.Tables (<[1%nat := ["S"]]> (<[2%nat := ["S"; "T"]]> ∅))
                             (<["S" := "A"]> (<["T" := "B"]> ∅)))
           2 (Some (SVSession.mk ("a.example", 50002, "s") 100 [1; 4; 2]))
           (SVSession.unsubscribe_request "T")).
  vm_compute. apply list_elem_of_singleton. reflexivity.
Defined.

(** The same tables; wallet 2 reports S and T as used. *)
Lemma unsubscribe_from_pairs_exclusive_witness :
  let tb :=
    SVSession.Tables (<[1%nat := ["S"]]> (<[2%nat := ["S"; "T"]]> ∅))
                     (<["S" := "A"]> (<["T" := "B"]> ∅)) in
  exists script_hash subs,
    SVSession.unsubscribe_request "T"
    = SVSession.unsubscribe_request script_hash
    /\ SVSession._subs_by_wallet tb !! 2%nat = Some subs
    /\ script_hash ∈ subs
    /\ forall other_wallet other_subs,
         other_wallet ≠ 2%nat ->
         SVSession._subs_by_wallet tb !! other_wallet = Some other_subs ->
         script_hash ∉ other_subs.
Proof.
  apply (unsubscribe_from_pairs_exclusive
           (SVSession.mk ("a.example", 50002, "s") 100 [1; 4; 2])
           (SVSession.Tables (<[1%nat := ["S"]]> (<[2%nat := ["S"; "T"]]> ∅))
                             (<["S" := "A"]> (<["T" := "B"]> ∅)))
           2 [("A", "S"); ("B", "T")]
           (SVSession.unsubscribe_request "T")).
  vm_compute. apply list_elem_of_singleton. reflexivity.
Defined.

Lemma subscribe_fold (pairs : list (string * string)) (subs : list string)
    (address_map : gmap string string) (sent : list request) :
  fold_left SVSession.subscribe_step pairs (subs, address_map, sent)
  = (subs ++ pairs.*2, SVSession.with_pairs address_map pairs,
     sent ++ (SVSession.subscribe_request <$> pairs.*2)).
Proof.
  revert subs address_map sent.
  induction pairs as [|[address script_hash] pairs IH];
    intros subs address_map sent; simpl.
  - by rewrite !app_nil_r.
  - rewrite IH. unfold SVSession.with_pairs. simpl.
    by rewrite <- !app_assoc.
Qed.

Lemma subscribe_to_pairs_closed (tb : SVSession.tables) (wallet : nat)
    (pairs : list (string * string)) :
  let subs' :=
    default [] (SVSession._subs_by_wallet tb !! wallet) ++ pairs.*2 in
  SVSession.subscribe_to_pairs tb wallet pairs
  = (SVSession.Tables (<[wallet := subs']> (SVSession._subs_by_wallet tb))
       (SVSession.with_pairs (SVSession._address_map tb) pairs),
     SVSession.subscribe_request <$> pairs.*2,
     if SVSession.no_double_subscription subs' then ret tt
     else raise AssertionError).
Proof.
  cbv zeta. unfold SVSession.subscribe_to_pairs.
  destruct (SVSession._subs_by_wallet tb !! wallet) as [subs|] eqn:Hw.
  - rewrite Hw. simpl. rewrite subscribe_fold. done.
  - rewrite lookup_insert_eq. simpl. rewrite subscribe_fold. simpl.
    by rewrite insert_insert_eq.
Qed.

Lemma with_pairs_lookup (pairs : list (string * string))
    (address_map : gmap string string) (script_hash : string) :
  (script_hash ∉ pairs.*2 ->
   SVSession.with_pairs address_map pairs !! script_hash
   = address_map !! script_hash)
  /\ (script_hash ∈ pairs.*2 ->
      exists address,
        (address, script_hash) ∈ pairs
        /\ SVSession.with_pairs address_map pairs !! script_hash
           = Some address).
Proof.
  unfold SVSession.with_pairs. revert address_map.
  induction pairs as [|[address sh] pairs IH] using rev_ind;
    intros address_map.
  - split; [done | intros H; by apply elem_of_nil in H].
  - rewrite fold_left_app, fmap_app. simpl. split.
    + intros Hn. rewrite lookup_insert_ne by set_solver.
      apply IH. set_solver.
    + intros Hin. destruct (decide (sh = script_hash)) as [->|Hne].
      * exists address. rewrite lookup_insert_eq. set_solver.
      * rewrite lookup_insert_ne by done.
        destruct (proj2 (IH address_map)) as (a & Ha & Hl); [set_solver|].
        exists a. set_solver.
Qed.

(** [subscribe_to_pairs] sends one subscribe request per pair, in order;
    it leaves the lists of the other wallets alone, gives every script
    hash of [pairs] an address, changes no other address, and keeps the
    invariant that every subscribed script hash has an address. *)
Theorem subscribe_to_pairs_effect (tb : SVSession.tables) (wallet : nat)
    (pairs : list (string * string)) :
  let r := SVSession.subscribe_to_pairs tb wallet pairs in
  r.1.2 = SVSession.subscribe_request <$> pairs.*2
  /\ (forall other_wallet,
        other_wallet ≠ wallet ->
        SVSession._subs_by_wallet r.1.1 !! other_wallet
        = SVSession._subs_by_wallet tb !! other_wallet)
  /\ (forall script_hash,
        script_hash ∈ pairs.*2 ->
        exists address,
          (address, script_hash) ∈ pairs
          /\ SVSession._address_map r.1.1 !! script_hash = Some address)
  /\ (forall script_hash,
        script_hash ∉ pairs.*2 ->
        SVSession._address_map r.1.1 !! script_hash
        = SVSession._address_map tb !! script_hash)
  /\ (SVSession.addresses_known tb -> SVSession.addresses_known r.1.1).
Proof.
  cbv zeta. rewrite subscribe_to_pairs_closed. cbn [fst snd].
  cbn [SVSession._subs_by_wallet SVSession._address_map].
  split; [done|]. split; [by intros; apply lookup_insert_ne|].
  split; [intros sh Hsh; by apply with_pairs_lookup|].
  split; [intros sh Hsh; by apply with_pairs_lookup|].
  intros Hknown w subs sh.
  cbn [SVSession._subs_by_wallet SVSession._address_map].
  assert (forall s, is_Some (SVSession._address_map tb !! s) ->
            is_Some (SVSession.with_pairs (SVSession._address_map tb) pairs
                     !! s)) as Hkeep.
  { intros s Hs. destruct (decide (s ∈ pairs.*2)) as [Hin|Hn].
    - destruct (proj2 (with_pairs_lookup pairs (SVSession._address_map tb) s)
                  Hin) as (a & _ & ->). done.
    - by rewrite (proj1 (with_pairs_lookup pairs _ s) Hn). }
  rewrite lookup_insert. case_decide as Hw.
  - subst w. intros [= <-] [Hold|Hnew]%elem_of_app.
    + apply Hkeep.
      destruct (SVSession._subs_by_wallet tb !! wallet) as [old|] eqn:Ho;
        [|by apply elem_of_nil in Hold].
      by apply (Hknown wallet old).
    + destruct (proj2 (with_pairs_lookup pairs (SVSession._address_map tb)
                         sh) Hnew) as (a & _ & ->). done.
  - intros Hs Hin. apply Hkeep. by apply (Hknown w subs).
Qed.









(** [unsubscribe_wallet] only forgets the list of the wallet: the lists
    of the other wallets and the whole address map stay as they were.  It
    sends nothing when the wallet is unknown, when there is no session or
    when the negotiated protocol is below (1, 4, 2), and it never sends
    the same request twice. *)
Theorem unsubscribe_wallet_effect (tb : SVSession.tables) (wallet : nat)
    (session : option SVSession.t) :
  (SVSession.unsubscribe_wallet tb wallet session).1
  = SVSession.Tables (delete wallet (SVSession._subs_by_wallet tb))
                     (SVSession._address_map tb)
  /\ (SVSession.unsubscribe_wallet tb wallet None).2 = []
  /\ (SVSession._subs_by_wallet tb !! wallet = None \/
      (exists self, session = Some self
                    /\ tuple_ltb (SVSession.ptuple self) [1; 4; 2] = true)
      -> (SVSession.unsubscribe_wallet tb wallet session).2 = [])
  /\ NoDup (SVSession.unsubscribe_wallet tb wallet session).2.
Proof.
  unfold SVSession.unsubscribe_wallet.
  destruct (SVSession._subs_by_wallet tb !! wallet) as [subs|] eqn:Hw.
  - split.
    { destruct session as [self|]; [|done].
      destruct (bool_decide _); [done|]. by destruct (tuple_ltb _ _). }
    split; [done|]. split.
    { intros [?|(self & -> & Hp)]; [done|].
      destruct (bool_decide _); [done|]. by rewrite Hp. }
    destruct session as [self|]; [|constructor].
    destruct (bool_decide _); [constructor|].
    destruct (tuple_ltb _ _); [constructor|]. cbn [snd].
    apply NoDup_fmap_2; [|apply NoDup_elements].
    by intros x y [= ->].
  - split; [|split; [done|split; [done|constructor]]].
    destruct tb as [sbw amap]. simpl in *. by rewrite delete_id.
Qed.

(** ** Network: the verdict of the lagging check *)

Lemma fold_max_attained (hs : list Z) (h : Z) :
  fold_left Z.max hs h = h \/ fold_left Z.max hs h ∈ hs.
Proof.
  revert h. induction hs as [|y hs IH]; intros h; simpl; [by left|].
  destruct (IH (Z.max h y)) as [Heq|Hin]; [|right; by right].
  rewrite Heq. destruct (Z.max_spec h y) as [[_ ->]|[_ ->]];
    [right; by left | by left].
Qed.

Lemma max_height_attained (sessions : list SVSession.t) :
  sessions <> [] ->
  exists session,
    session ∈ sessions
    /\ SVSession.tip_height session = Network.max_height sessions.
Proof.
  unfold Network.max_height. destruct sessions as [|s sessions]; [done|].
  intros _. rewrite fmap_cons.
  destruct (fold_max_attained (SVSession.tip_height <$> sessions)
              (SVSession.tip_height s)) as [->|Hin].
  - exists s. split; [by left | done].
  - apply list_elem_of_fmap in Hin as (s' & Hs' & Hin).
    exists s'. split; [by right | done].
Qed.

Lemma refreshed_is_good (self : Network.t) (all_servers : SVServer.registry)
    (now : Q) (session : SVSession.t) :
  session ∈ Network.sessions self ->
  Network.max_height (Network.sessions self)
  - SVSession.tip_height session < 2 ->
  is_Some (all_servers !! SVSession.server session) ->
  Network.is_good
    (Network.mark_good all_servers (Network.sessions self)
       (Network.max_height (Network.sessions self)) now)
    now session = true.
Proof.
  intros Hin Hh [server Hs]. unfold Network.is_good.
  rewrite mark_good_lookup, Hs.
  replace (existsb _ _) with true.
  - cbn [fmap option_fmap option_map Network.refresh SVServer.state
         SVServerState.set_last_good SVServerState.last_good].
    unfold Qgtb. apply Qltb_lt.
    rewrite <- (Qplus_0_r now) at 2. unfold Qminus.
    apply Qplus_lt_r. reflexivity.
  - symmetry. apply existsb_exists. exists session.
    split; [by apply list_elem_of_In|].
    rewrite bool_decide_eq_true_2 by done.
    rewrite andb_true_r. apply Z.gtb_lt. lia.
Qed.

(** With every session on an interned server, the check finds no good
    server exactly when there is no session at all: a session at the
    greatest height is always good. *)
Theorem no_good_servers_iff_no_sessions (self : Network.t)
    (all_servers : SVServer.registry) (now : Q) :
  (forall session, session ∈ Network.sessions self ->
     is_Some (all_servers !! SVSession.server session)) ->
  (Network._maybe_switch_main_server self all_servers now).2
  = Network.NoGoodServers
  <-> Network.sessions self = [].
Proof.
  intros Hint. unfold Network._maybe_switch_main_server. cbn [snd].
  split.
  - intros Hv. destruct (Network.sessions self) as [|s l] eqn:Hs; [done|].
    exfalso. rewrite <- Hs in *.
    destruct (max_height_attained (Network.sessions self)) as (top & Hin & Htop);
      [by rewrite Hs|].
    pose proof (refreshed_is_good self all_servers now top Hin
                  ltac:(lia) (Hint top Hin)) as Hgood.
    assert (SVSession.server top ∈
              SVSession.server <$>
                List.filter
                  (Network.is_good
                     (Network.mark_good all_servers (Network.sessions self)
                        (Network.max_height (Network.sessions self)) now)
                     now) (Network.sessions self)) as Hmem.
    { apply list_elem_of_fmap. exists top. split; [done|].
      apply list_elem_of_In, filter_In. split; [by apply list_elem_of_In|].
      done. }
    destruct (SVSession.server <$> List.filter _ _) as [|k ks];
      [by apply elem_of_nil in Hmem|].
    by destruct (negb _), (Network.auto_connect self).
  - intros ->. reflexivity.
Qed.

(** One session on an interned server. *)
Lemma no_good_servers_iff_no_sessions_witness :
  let a := ("a.example", 50002, "s") in
  let all_servers : SVServer.registry :=
    <[a := SVServer.mk "a.example" 50002 "s" SVServerState.__init__]> ∅ in
  let self := Network.mk [SVSession.mk a 100 [1; 4; 2]] a true in
  (Network._maybe_switch_main_server self all_servers 1000%Q).2
  = Network.NoGoodServers
  <-> Network.sessions self = [].
Proof.
  apply (no_good_servers_iff_no_sessions
           (Network.mk
              [SVSession.mk ("a.example", 50002, "s") 100 [1; 4; 2]]
              ("a.example", 50002, "s") true)
           (<[("a.example", 50002, "s") :=
                SVServer.mk "a.example" 50002 "s" SVServerState.__init__]> ∅)
           1000%Q).
  intros session ->%list_elem_of_singleton. by eexists.
Defined.

(** The check offers a switch only with [auto_connect] on and the main
    server outside the good servers; the servers it offers are servers of
    current sessions whose [last_good] is less than 60 seconds old. *)
Theorem switch_only_to_good_servers (self : Network.t)
    (all_servers : SVServer.registry) (now : Q)
    (good_servers : list (string * Z * string)) :
  (Network._maybe_switch_main_server self all_servers now).2
  = Network.SwitchToOneOf good_servers ->
  Network.auto_connect self = true
  /\ (Network.main_server self ∉ good_servers)
  /\ good_servers <> []
  /\ forall key, key ∈ good_servers ->
       exists session server,
         session ∈ Network.sessions self
         /\ SVSession.server session = key
         /\ (Network._maybe_switch_main_server self all_servers now).1 !! key
            = Some server
         /\ (now - 60
             < SVServerState.last_good (SVServer.state server))%Q.
Proof.
  unfold Network._maybe_switch_main_server. cbn [fst snd].
  set (servers := Network.mark_good _ _ _ _).
  set (good := SVSession.server <$> List.filter _ _).
  assert (forall key, key ∈ good ->
            exists session server,
              session ∈ Network.sessions self
              /\ SVSession.server session = key
              /\ servers !! key = Some server
              /\ (now - 60
                  < SVServerState.last_good (SVServer.state server))%Q)
    as Hgood.
  { intros key (session & -> & Hin)%list_elem_of_fmap.
    apply list_elem_of_In, filter_In in Hin as [Hin Hg].
    unfold Network.is_good in Hg.
    destruct (servers !! SVSession.server session) as [server|] eqn:Hs;
      [|done].
    exists session, server. split; [by apply list_elem_of_In|].
    split; [done|]. split; [done|]. by apply Qltb_lt in Hg. }
  clearbody good servers.
  destruct good as [|k ks]; [done|].
  destruct (bool_decide (Network.main_server self ∈ k :: ks)) eqn:Hm;
    cbn [negb]; [done|].
  destruct (Network.auto_connect self); [|done].
  intros [= <-]. split; [done|].
  split; [by apply bool_decide_eq_false_1 in Hm|]. split; [done|].
  exact Hgood.
Qed.

(** Main server [a] two blocks behind [b], and [last_good] of [a] long
    ago: the check offers [b]. *)
Lemma switch_only_to_good_servers_witness :
  let a := ("a.example", 50002, "s") in
  let b := ("b.example", 50002, "s") in
  let all_servers : SVServer.registry :=
    <[a := SVServer.mk "a.example" 50002 "s" SVServerState.__init__]>
      (<[b := SVServer.mk "b.example" 50002 "s" SVServerState.__init__]> ∅) in
  let self :=
    Network.mk [SVSession.mk a 98 [1; 4; 2]; SVSession.mk b 100 [1; 4; 2]]
               a true in
  Network.auto_connect self = true
  /\ (Network.main_server self ∉ [b])
  /\ [b] <> []
  /\ forall key, key ∈ [b] ->
       exists session server,
         session ∈ Network.sessions self
         /\ SVSession.server session = key
         /\ (Network._maybe_switch_main_server self all_servers 1000%Q).1
            !! key = Some server
         /\ (1000 - 60
             < SVServerState.last_good (SVServer.state server))%Q.
Proof.
  apply (switch_only_to_good_servers
           (Network.mk
              [SVSession.mk ("a.example", 50002, "s") 98 [1; 4; 2];
               SVSession.mk ("b.example", 50002, "s") 100 [1; 4; 2]]
              ("a.example", 50002, "s") true)
           (<[("a.example", 50002, "s") :=
                SVServer.mk "a.example" 50002 "s" SVServerState.__init__]>
              (<[("b.example", 50002, "s") :=
                   SVServer.mk "b.example" 50002 "s"
                     SVServerState.__init__]> ∅))
           1000%Q [("b.example", 50002, "s")]).
  reflexivity.
Defined.

(** A main server with a session less than 2 blocks behind the greatest
    tip is kept, whatever [auto_connect] says and however old its
    [last_good] was. *)
Theorem main_server_kept_when_not_lagging (self : Network.t)
    (all_servers : SVServer.registry) (now : Q) (session : SVSession.t) :
  session ∈ Network.sessions self ->
  SVSession.server session = Network.main_server self ->
  Network.max_height (Network.sessions self)
  - SVSession.tip_height session < 2 ->
  is_Some (all_servers !! Network.main_server self) ->
  (Network._maybe_switch_main_server self all_servers now).2
  = Network.MainServerGood.
Proof.
  intros Hin Hmain Hh Hs. unfold Network._maybe_switch_main_server.
  cbn [snd]. rewrite <- Hmain in Hs.
  pose proof (refreshed_is_good self all_servers now session Hin Hh Hs)
    as Hgood.
  assert (Network.main_server self ∈
            SVSession.server <$>
              List.filter
                (Network.is_good
                   (Network.mark_good all_servers (Network.sessions self)
                      (Network.max_height (Network.sessions self)) now)
                   now) (Network.sessions self)) as Hmem.
  { apply list_elem_of_fmap. exists session. split; [done|].
    apply list_elem_of_In, filter_In. split; [by apply list_elem_of_In|].
    done. }
  destruct (SVSession.server <$> List.filter _ _) as [|k ks];
    [by apply elem_of_nil in Hmem|].
  by rewrite bool_decide_eq_true_2 by done.
Qed.

(** Main server [a] one block behind [b]. *)
Lemma main_server_kept_when_not_lagging_witness :
  let a := ("a.example", 50002, "s") in
  let b := ("b.example", 50002, "s") in
  let all_servers : SVServer.registry :=
    <[a := SVServer.mk "a.example" 50002 "s" SVServerState.__init__]>
      (<[b := SVServer.mk "b.example" 50002 "s" SVServerState.__init__]> ∅) in
  let self :=
    Network.mk [SVSession.mk a 99 [1; 4; 2]; SVSession.mk b 100 [1; 4; 2]]
               a true in
  (Network._maybe_switch_main_server self all_servers 1000%Q).2
  = Network.MainServerGood.
Proof.
  apply (main_server_kept_when_not_lagging
           (Network.mk
              [SVSession.mk ("a.example", 50002, "s") 99 [1; 4; 2];
               SVSession.mk ("b.example", 50002, "s") 100 [1; 4; 2]]
              ("a.example", 50002, "s") true)
           (<[("a.example", 50002, "s") :=
                SVServer.mk "a.example" 50002 "s" SVServerState.__init__]>
              (<[("b.example", 50002, "s") :=
                   SVServer.mk "b.example" 50002 "s"
                     SVServerState.__init__]> ∅))
           1000%Q (SVSession.mk ("a.example", 50002, "s") 99 [1; 4; 2])).
  - by left.
  - reflexivity.
  - vm_compute. reflexivity.
  - by eexists.
Defined.

(** [_available_servers] offers exactly the interned servers that are not
    chosen by a connection, speak the protocol asked for, have
    [last_blacklisted] not above the float [now - 86400] and the float
    [last_try + retry_delay] before [now]. *)
Theorem available_servers_membership (all_servers : SVServer.registry)
    (chosen_servers : gset (string * Z * string)) (protocol : string)
    (now : Q) (server : SVServer.t) :
  server ∈ Network._available_servers all_servers chosen_servers protocol now
  <-> (exists key,
         all_servers !! key = Some server /\ key ∉ chosen_servers)
      /\ SVServer.protocol server = protocol
      /\ (round53 (SVServerState.last_blacklisted (SVServer.state server))
          <= float_sub now 86400)%Q
      /\ (float_add (SVServerState.last_try (SVServer.state server))
            (inject_Z (SVServerState.retry_delay (SVServer.state server)))
          < round53 now)%Q.
Proof.
  unfold Network._available_servers.
  rewrite list_elem_of_In, filter_In, <- list_elem_of_In.
  rewrite andb_true_iff, can_retry_true, String.eqb_eq.
  rewrite list_elem_of_fmap.
  change (inject_Z ONE_DAY) with (inject_Z 86400).
  split.
  - intros [([key srv] & -> & Hin) Hrest]. split; [|done].
    apply list_elem_of_In, filter_In in Hin as [Hin Hc].
    apply list_elem_of_In, elem_of_map_to_list in Hin.
    apply negb_true_iff, bool_decide_eq_false_1 in Hc. by exists key.
  - intros [(key & Hl & Hc) Hrest]. split; [|done].
    exists (key, server). split; [done|].
    apply list_elem_of_In, filter_In. split.
    + by apply list_elem_of_In, elem_of_map_to_list.
    + by apply negb_true_iff, bool_decide_eq_false_2.
Qed.

(** ** The reason of a failed broadcast *)

Lemma first_reason_spec (msg : string)
    (rules : list ((string + list string) * string)) :
  match first_reason msg rules with
  | None =>
      Forall (fun rule =>
                Forall (fun in_msg => str_in in_msg msg = false)
                       (as_tuple rule.1)) rules
  | Some reason =>
      exists before in_msgs after,
        rules = before ++ (in_msgs, reason) :: after
        /\ Exists (fun in_msg => str_in in_msg msg = true) (as_tuple in_msgs)
        /\ Forall (fun rule =>
                     Forall (fun in_msg => str_in in_msg msg = false)
                            (as_tuple rule.1)) before
  end.
Proof.
  induction rules as [|[in_msgs out_msg] rules IH]; cbn [first_reason];
    [by constructor|].
  destruct (existsb _ (as_tuple in_msgs)) eqn:Hany.
  - exists [], in_msgs, rules. split; [done|]. split; [|by constructor].
    apply existsb_exists in Hany as (in_msg & Hin & Hs).
    apply Exists_exists. exists in_msg. by rewrite list_elem_of_In.
  - assert (Forall (fun in_msg => str_in in_msg msg = false)
                   (as_tuple in_msgs)) as Hnone.
    { apply Forall_forall. intros in_msg Hin.
      destruct (str_in in_msg msg) eqn:Hs; [|done].
      assert (existsb (fun in_msg => str_in in_msg msg) (as_tuple in_msgs)
              = true) as Hyes; [|congruence].
      apply existsb_exists. exists in_msg. by rewrite <- list_elem_of_In. }
    destruct (first_reason msg rules) as [reason|].
    + destruct IH as (before & in_msgs' & after & -> & Hex & Hall).
      exists ((in_msgs, out_msg) :: before), in_msgs', after.
      split; [done|]. split; [done|]. by constructor.
    + by constructor.
Qed.

(** [broadcast_failure_reason] reports the reason of the first entry of
    [BROADCAST_TX_MSG_LIST] one of whose texts occurs in the message of an
    [RPCError]; with no such entry, or any other exception, it reports
    [reason unknown]. *)
Theorem broadcast_failure_reason_first_match (_tr : string -> string)
    (exception : exn) :
  match exception with
  | RPCError msg =>
      (Forall (fun rule =>
                 Forall (fun in_msg => str_in in_msg msg = false)
                        (as_tuple rule.1)) (BROADCAST_TX_MSG_LIST _tr)
       /\ broadcast_failure_reason _tr exception = _tr "reason unknown")
      \/ (exists before in_msgs after,
            BROADCAST_TX_MSG_LIST _tr
            = before
              ++ (in_msgs, broadcast_failure_reason _tr exception) :: after
            /\ Exists (fun in_msg => str_in in_msg msg = true)
                      (as_tuple in_msgs)
            /\ Forall (fun rule =>
                         Forall (fun in_msg => str_in in_msg msg = false)
                                (as_tuple rule.1)) before)
  | _ => broadcast_failure_reason _tr exception = _tr "reason unknown"
  end.
Proof.
  destruct exception as [| | | | | | |msg| |]; try reflexivity.
  unfold broadcast_failure_reason.
  pose proof (first_reason_spec msg (BROADCAST_TX_MSG_LIST _tr)) as Hspec.
  destruct (first_reason msg (BROADCAST_TX_MSG_LIST _tr)) as [reason|].
  - right. exact Hspec.
  - left. by split.
Qed.
